(** * ABCU advising program: the course loader and its two queries

    A shallow embedding of [ProjectTwo.cpp] and the properties of its
    specification.

    - [std::string] is [string] (a sequence of 8-bit characters); characters
      are classified as in the "C" locale, through their code [N_of_ascii].
    - [CourseTable] ([std::unordered_map<std::string, Course>]) is
      [gmap string Course]; [std::unordered_set<std::string>] is [gset string].
    - [std::cerr] and [std::cout] are the lists of the lines written to them,
      one constructor per message of the program.
    - [std::ifstream] reads from a file system, a partial map from file names
      to file contents. *)

From stdpp Require Import gmap strings list fin_maps sorting.
From Stdlib Require Import Ascii NArith.
From Stdlib Require DecimalString DecimalZ.

Local Open Scope N_scope.

(** ** Characters *)

(** [std::isspace] in the "C" locale: space, and the controls [\t \n \v \f \r]. *)
Definition isspace (c : ascii) : bool :=
  let n := N_of_ascii c in
  (n =? 32) || ((9 <=? n) && (n <=? 13)).

(** [std::toupper] in the "C" locale: the letters [a..z] move to [A..Z]. *)
Definition toupper (c : ascii) : ascii :=
  let n := N_of_ascii c in
  if (97 <=? n) && (n <=? 122) then ascii_of_N (n - 32) else c.

Local Close Scope N_scope.

(** ** Utility helpers *)

(** [isspace(s[i])] for an index the caller has checked to be in range. *)
Definition isspaceAt (s : string) (i : nat) : bool :=
  match String.get i s with
  | Some c => isspace c
  | None => false
  end.

(** First loop of [trim]:
    [while (start < s.size() && isspace(s[start])) start++], from [start = 0]. *)
Fixpoint trimStart (s : string) : nat :=
  match s with
  | EmptyString => 0
  | String c s' => if isspace c then S (trimStart s') else 0
  end.

(** Second loop of [trim]:
    [while (end > start && isspace(s[end - 1])) end--]. *)
Fixpoint trimEnd (s : string) (start end_ : nat) : nat :=
  match end_ with
  | 0 => 0
  | S e => if (start <? end_) && isspaceAt s e then trimEnd s start e else end_
  end.

(** [trim]: the two loops, then [s.substr(start, end - start)]. *)
Definition trim (s : string) : string :=
  let start := trimStart s in
  let end_ := trimEnd s start (String.length s) in
  String.substring start (end_ - start) s.

(** The range-for of [normalizeCourseNumber]: every character through
    [toupper]. *)
Fixpoint upcase (t : string) : string :=
  match t with
  | EmptyString => EmptyString
  | String ch t' => String (toupper ch) (upcase t')
  end.

(** [normalizeCourseNumber]: [trim], then upper case. *)
Definition normalizeCourseNumber (s : string) : string :=
  upcase (trim s).

(** One call [std::getline(ss, token, delim)] on a stream whose unread
    characters are [s]: the characters before the first [delim] (which is
    consumed) or up to the end, and the characters left unread. *)
Fixpoint getline (delim : ascii) (s : string) : string * string :=
  match s with
  | EmptyString => (EmptyString, EmptyString)
  | String c s' =>
      if decide (c = delim) then (EmptyString, s')
      else let '(token, rest) := getline delim s' in (String c token, rest)
  end.

(** The loop [while (std::getline(in, line, delim)) body], collecting the
    extracted strings. The call fails, and the loop ends, when no character
    is left unread. Each call that succeeds on a non-empty stream consumes at
    least one character, so [fuel] above the length of the stream is never
    exhausted. *)
Fixpoint getlineLoop (fuel : nat) (delim : ascii) (s : string) : list string :=
  match fuel with
  | 0 => []
  | S fuel' =>
      match s with
      | EmptyString => []
      | _ => let '(token, rest) := getline delim s in
             token :: getlineLoop fuel' delim rest
      end
  end.

(** The loop on a stream holding [s], with fuel that suffices. *)
Definition getlines (delim : ascii) (s : string) : list string :=
  getlineLoop (S (String.length s)) delim s.

(** [line.back()], for a non-empty line; [None] for the empty line, on
    which the source does not call it. *)
Fixpoint back (line : string) : option ascii :=
  match line with
  | EmptyString => None
  | String c EmptyString => Some c
  | String _ line' => back line'
  end.

(** [splitByComma]: the trimmed tokens the [getline] loop extracts, and an
    empty token more when [!line.empty() && line.back() == ',']. *)
Definition splitByComma (line : string) : list string :=
  let tokens := trim <$> getlines "," line in
  if decide (back line = Some ","%char) then tokens ++ [""] else tokens.

(** ** Core program functions *)

Record Course := {
  courseNumber : string;
  title : string;
  prerequisites : list string;
}.

Abbreviation CourseTable := (gmap string Course).

(** The file system [std::ifstream] opens files in: [None] is a file that
    cannot be opened ([!in.is_open()]), [Some content] its characters. *)
Definition FileSystem := string → option string.

(** The bounds of [int], of 32 bits. *)
Definition INT_MIN : Z := -2147483648.
Definition INT_MAX : Z := 2147483647.

(** The [int] an integer wraps around to: the representative of its class
    modulo [2^32] between [INT_MIN] and [INT_MAX]. *)
Definition wrapInt (z : Z) : Z :=
  ((z - INT_MIN) `mod` 2 ^ 32 + INT_MIN)%Z.

(** [n++] on an [int]: after [INT_MAX] comes [INT_MIN]. *)
Definition increment (n : Z) : Z := wrapInt (n + 1).
Arguments wrapInt : simpl never.
Arguments increment : simpl never.

(** The lines written to [std::cerr] by [loadCoursesFromFile]; line numbers
    are values of [int lineNumber]. *)
Inductive ErrLine :=
  | ErrCouldNotOpen (fileName : string)
  | ErrBadFormat (lineNumber : Z)
  | ErrMissing (lineNumber : Z)
  | ErrDuplicate (courseNum : string) (lineNumber : Z)
  | ErrInvalidPrereq (lineNumber : Z) (prereq courseNum : string).

(** The lines written to [std::cout] by the two queries. *)
Inductive OutLine :=
  | OutNoData                                  (* No course data loaded. *)
  | OutCourse (courseNumber title : string)    (* <number>, <title> *)
  | OutNotFound (courseNumber : string)        (* Course not found: <number> *)
  | OutPrereqNone                              (* Prerequisites: None *)
  | OutPrereqHeader                            (* Prerequisites: *)
  | OutPrereq (courseNumber title : string)    (*   <number>, <title> *)
  | OutPrereqMissing (prereqNum : string).     (*   <number> (missing info) *)

(** The variables a pass of the loader updates while it reads lines:
    [allCourseNumbers] in pass 1 and [coursesTable] in pass 2 ([vars]), the
    counter [int lineNumber], which [lineNumber++] wraps around past
    [INT_MAX], and the output on [std::cerr]. *)
Record Scan (A : Type) := MkScan {
  vars : A;
  lineNumber : Z;
  cerr : list ErrLine;
}.
Arguments MkScan {A} _ _ _.
Arguments vars {A} _.
Arguments lineNumber {A} _.
Arguments cerr {A} _.

(** [continue] without a message, with a message, and with [vars] updated. *)
Definition skipLine {A} (st : Scan A) : Scan A :=
  MkScan (vars st) (increment (lineNumber st)) (cerr st).
Definition skipWith {A} (st : Scan A) (e : Z → ErrLine) : Scan A :=
  MkScan (vars st) (increment (lineNumber st))
    (cerr st ++ [e (increment (lineNumber st))]).
Definition nextWith {A} (st : Scan A) (v : A) : Scan A :=
  MkScan v (increment (lineNumber st)) (cerr st).

(** Body of the pass-1 loop (lines 83-112). [tokens[0]] and [tokens[1]] are
    read after the test [tokens.size() < 2], here by pattern matching. *)
Definition pass1Body (st : Scan (gset string)) (line : string) : Scan (gset string) :=
  if decide (trim line = "") then skipLine st
  else
    match splitByComma line with
    | token0 :: token1 :: _ =>
        let courseNum := normalizeCourseNumber token0 in
        let title := trim token1 in
        if decide (courseNum = "" ∨ title = "") then skipWith st ErrMissing
        else if decide (courseNum ∈ vars st) then skipWith st (ErrDuplicate courseNum)
        else nextWith st ({[courseNum]} ∪ vars st)
    | _ => skipWith st ErrBadFormat
    end.

(** The validation loop over [tokens[2..]] (lines 150-165): the first
    non-blank prerequisite that is not a declared course number, at which the
    loop breaks with [prereqIsValid = false]. *)
Fixpoint invalidPrereq (allCourseNumbers : gset string) (tokens : list string)
  : option string :=
  match tokens with
  | [] => None
  | token :: tokens' =>
      let prereq := normalizeCourseNumber token in
      if decide (prereq = "") then invalidPrereq allCourseNumbers tokens'
      else if decide (prereq ∈ allCourseNumbers)
           then invalidPrereq allCourseNumbers tokens'
           else Some prereq
  end.

(** The loop that fills [c.prerequisites] from [tokens[2..]] (lines 177-182). *)
Fixpoint collectPrereqs (tokens : list string) : list string :=
  match tokens with
  | [] => []
  | token :: tokens' =>
      let prereq := normalizeCourseNumber token in
      if decide (prereq = "") then collectPrereqs tokens'
      else prereq :: collectPrereqs tokens'
  end.

(** The guarded insertion at the end of the pass-2 loop (lines 186-188):
    [if (coursesTable.find(c.courseNumber) == coursesTable.end())
       coursesTable[c.courseNumber] = c]. *)
Definition insertCourse (coursesTable : CourseTable) (c : Course) : CourseTable :=
  if decide (coursesTable !! courseNumber c = None)
  then <[courseNumber c := c]> coursesTable
  else coursesTable.

(** Body of the pass-2 loop (lines 127-188). *)
Definition pass2Body (allCourseNumbers : gset string)
    (st : Scan CourseTable) (line : string) : Scan CourseTable :=
  if decide (trim line = "") then skipLine st
  else
    match splitByComma line with
    | token0 :: token1 :: prereqTokens =>
        let courseNum := normalizeCourseNumber token0 in
        let title := trim token1 in
        if decide (courseNum = "" ∨ title = "") then skipWith st ErrMissing
        else
          match invalidPrereq allCourseNumbers prereqTokens with
          | Some prereq =>
              skipWith st (λ n, ErrInvalidPrereq n prereq courseNum)
          | None =>
              let c := {| courseNumber := courseNum; title := title;
                          prerequisites := collectPrereqs prereqTokens |} in
              nextWith st (insertCourse (vars st) c)
          end
    | _ => skipWith st ErrBadFormat
    end.

(** The lines [std::getline(in, line)] reads from a file: the delimiter is
    the newline character, of code 10. *)
Definition fileLines (content : string) : list string :=
  getlines "010" content.

(** Pass 1 over the lines of the file, from the empty set. *)
Definition pass1 (lines : list string) : Scan (gset string) :=
  foldl pass1Body (MkScan ∅ 0%Z []) lines.

(** Pass 2 over the lines of the file, from the empty table; [cerr0] is
    what pass 1 wrote to [std::cerr]. *)
Definition pass2 (allCourseNumbers : gset string) (cerr0 : list ErrLine)
    (lines : list string) : Scan CourseTable :=
  foldl (pass2Body allCourseNumbers) (MkScan ∅ 0%Z cerr0) lines.

(** [loadCoursesFromFile]: the table returned, and what was written to
    [std::cerr]. Each pass opens the file; the file system is the same for
    both, so the second [is_open] test fails only when the first does. *)
Definition loadCoursesFromFile (fs : FileSystem) (fileName : string)
  : CourseTable * list ErrLine :=
  match fs fileName with
  | None => (∅, [ErrCouldNotOpen fileName])
  | Some content1 =>
      let p1 := pass1 (fileLines content1) in
      match fs fileName with
      | None => (∅, cerr p1 ++ [ErrCouldNotOpen fileName])
      | Some content2 =>
          let p2 := pass2 (vars p1) (cerr p1) (fileLines content2) in
          (vars p2, cerr p2)
      end
  end.

(** The set [allCourseNumbers] at the end of pass 1. *)
Definition declaredCourseNumbers (fs : FileSystem) (fileName : string) : gset string :=
  match fs fileName with
  | None => ∅
  | Some content => vars (pass1 (fileLines content))
  end.

(** [std::sort] on course numbers, with [operator<] of [std::string]
    (characters compared as unsigned bytes). The table's keys are pairwise
    distinct, so every sorting algorithm returns the same sequence
    ([sorted_keys_unique] below); merge sort stands for it. *)
Definition sortCourseNums (courseNums : list string) : list string :=
  merge_sort String.le courseNums.

(** Body of the printing loop of [printCourseListSorted] (lines 210-211):
    [None] when [coursesTable.at(num)] throws. *)
Definition printCourseRow (coursesTable : CourseTable) (num : string) : option OutLine :=
  c ← coursesTable !! num; Some (OutCourse (courseNumber c) (title c)).

(** [printCourseListSorted]: the lines written to [std::cout]; [None] when
    an exception leaves the function. The keys are collected in the
    iteration order of the table, which the sort makes irrelevant. *)
Definition printCourseListSorted (coursesTable : CourseTable) : option (list OutLine) :=
  if decide (coursesTable = ∅) then Some [OutNoData]
  else
    let courseNums := (map_to_list coursesTable).*1 in
    mapM (printCourseRow coursesTable) (sortCourseNums courseNums).

(** Body of the prerequisite loop of [printCourseInfo] (lines 238-245). *)
Definition printPrereq (coursesTable : CourseTable) (prereqNum : string) : OutLine :=
  match coursesTable !! prereqNum with
  | Some p => OutPrereq (courseNumber p) (title p)
  | None => OutPrereqMissing prereqNum
  end.

(** [printCourseInfo]: the lines written to [std::cout]. *)
Definition printCourseInfo (coursesTable : CourseTable) (inputCourseNumber : string)
  : list OutLine :=
  if decide (coursesTable = ∅) then [OutNoData]
  else
    let courseNumber_ := normalizeCourseNumber inputCourseNumber in
    match coursesTable !! courseNumber_ with
    | None => [OutNotFound courseNumber_]
    | Some course =>
        OutCourse (courseNumber course) (title course) ::
        match prerequisites course with
        | [] => [OutPrereqNone]
        | _ =>
            OutPrereqHeader :: (printPrereq coursesTable <$> prerequisites course)
        end
    end.

(** ** Sample inputs *)

(** The scenario of the specification. *)
Definition scenarioFile : string :=
  "CS101, Intro to CS,
CS201, Data Structures, CS101
CS300, Algorithms, CS201,CS999
cs101, Duplicate Intro,
".

Definition scenarioFS : FileSystem := λ _, Some scenarioFile.

(** Two otherwise-valid lines that declare the same course number. *)
Definition duplicateFile : string :=
  "CS101, Intro to CS,
cs101, Duplicate Intro,
".

Definition duplicateFS : FileSystem := λ _, Some duplicateFile.

(** A course whose prerequisite is declared, but rejected in pass 2. *)
Definition cascadeFile : string :=
  "CS200, Data Structures, CS300
CS300, Algorithms, CS999
".

Definition cascadeFS : FileSystem := λ _, Some cascadeFile.

(** A course number declared twice, the first time with a prerequisite that
    no line declares. *)
Definition shadowedFile : string :=
  "CS101, A, CS999
cs101, B
".

Definition shadowedFS : FileSystem := λ _, Some shadowedFile.

(** ** Auxiliary definitions used in the statements *)

(** What the first loop of [trim] leaves: [s] without its leading
    white space. *)
Fixpoint dropSpaceFront (s : string) : string :=
  match s with
  | EmptyString => EmptyString
  | String c s' => if isspace c then dropSpaceFront s' else s
  end.

(** What the second loop of [trim] leaves: [s] without its trailing
    white space. *)
Fixpoint dropSpaceBack (s : string) : string :=
  match s with
  | EmptyString => EmptyString
  | String c s' =>
      match dropSpaceBack s' with
      | EmptyString => if isspace c then EmptyString else String c EmptyString
      | r => String c r
      end
  end.

(** The course number a line declares in pass 1: the line is not blank, has
    at least two tokens, and neither the normalized first token nor the
    trimmed second one is empty (the tests of lines 85-104, the same as
    lines 129-147). *)
Definition declaredBy (line : string) : option string :=
  if decide (trim line = "") then None
  else
    match splitByComma line with
    | token0 :: token1 :: _ =>
        let courseNum := normalizeCourseNumber token0 in
        let title := trim token1 in
        if decide (courseNum = "" ∨ title = "") then None else Some courseNum
    | _ => None
    end.

(** The [Course] object pass 2 builds from a line that passes every test of
    the loop body (lines 129-182), [None] for a line the body skips. *)
Definition builtCourse (allCourseNumbers : gset string) (line : string)
  : option Course :=
  if decide (trim line = "") then None
  else
    match splitByComma line with
    | token0 :: token1 :: prereqTokens =>
        let courseNum := normalizeCourseNumber token0 in
        let title := trim token1 in
        if decide (courseNum = "" ∨ title = "") then None
        else
          match invalidPrereq allCourseNumbers prereqTokens with
          | Some _ => None
          | None =>
              Some {| courseNumber := courseNum; title := title;
                      prerequisites := collectPrereqs prereqTokens |}
          end
    | _ => None
    end.

(** Number of occurrences of a character in a string. *)
Fixpoint countChar (d : ascii) (s : string) : nat :=
  match s with
  | EmptyString => 0
  | String c s' => (if decide (c = d) then 1 else 0) + countChar d s'
  end.

(** The rows of a listing: the [<number>, <title>] lines among the lines
    written. *)
Fixpoint courseRows (out : list OutLine) : list (string * string) :=
  match out with
  | [] => []
  | OutCourse num ttl :: out' => (num, ttl) :: courseRows out'
  | _ :: out' => courseRows out'
  end.

(** Every record of the table is stored under its own [courseNumber]. *)
Definition keyedByNumber (coursesTable : CourseTable) : Prop :=
  map_Forall (λ k c, courseNumber c = k) coursesTable.

(** [std::islower] in the "C" locale: the letters [a..z]. *)
Definition islower (c : ascii) : bool :=
  let n := N_of_ascii c in
  (97 <=? n)%N && (n <=? 122)%N.

(** A string without white space at either end and without lower-case
    letters: what [normalizeCourseNumber] returns. *)
Definition normalizedString (k : string) : Prop :=
  (∀ c, String.get 0 k = Some c → isspace c = false) ∧
  (∀ c, back k = Some c → isspace c = false) ∧
  (∀ i c, String.get i k = Some c → islower c = false).

(** Every character of [s] is white space. *)
Fixpoint allSpace (s : string) : bool :=
  match s with
  | EmptyString => true
  | String c s' => isspace c && allSpace s'
  end.

(** The stream that holds the given strings, each followed by the
    delimiter. *)
Fixpoint delimited (delim : ascii) (tokens : list string) : string :=
  match tokens with
  | [] => ""
  | token :: tokens' => token +:+ String delim (delimited delim tokens')
  end.

(** A count of lines as the [int] the program holds it in: the count
    itself up to [INT_MAX], wrapped around beyond. *)
Definition asInt (n : nat) : Z := wrapInt (Z.of_nat n).
Arguments asInt : simpl never.

(** [prereq] is the first prerequisite among [tokens] that is not blank and
    not in [allCourseNumbers]: the normalized token at some position, with
    every token before it blank or a member of the set. *)
Definition firstUndeclared (allCourseNumbers : gset string) (tokens : list string)
    (prereq : string) : Prop :=
  ∃ j token,
    tokens !! j = Some token ∧ normalizeCourseNumber token = prereq ∧
    prereq ≠ "" ∧ (prereq ∉ allCourseNumbers) ∧
    ∀ j' token', j' < j → tokens !! j' = Some token' →
      normalizeCourseNumber token' = "" ∨
      normalizeCourseNumber token' ∈ allCourseNumbers.

(** What justifies a diagnostic for the line at index [i] (counted from 0),
    given the lines before it: the line is not blank, the diagnostic names
    the line number [i + 1], as an [int], and
    - for a bad format, the line has no comma;
    - for a missing field, it has a comma but declares no course number;
    - for a duplicate, it declares a number that an earlier line declares;
    - for an invalid prerequisite, it declares a number, and the
      prerequisite named is the first of its prerequisite tokens (the
      tokens after the second) that is not blank and not in
      [allCourseNumbers]. *)
Definition diagnosedAt (allCourseNumbers : gset string) (earlier : list string)
    (line : string) (i : nat) (e : ErrLine) : Prop :=
  trim line ≠ "" ∧
  match e with
  | ErrCouldNotOpen _ => False
  | ErrBadFormat n => n = asInt (S i) ∧ countChar "," line = 0
  | ErrMissing n => n = asInt (S i) ∧ 0 < countChar "," line ∧ declaredBy line = None
  | ErrDuplicate courseNum n =>
      n = asInt (S i) ∧ declaredBy line = Some courseNum ∧
      ∃ line', line' ∈ earlier ∧ declaredBy line' = Some courseNum
  | ErrInvalidPrereq n prereq courseNum =>
      n = asInt (S i) ∧ declaredBy line = Some courseNum ∧
      firstUndeclared allCourseNumbers (drop 2 (splitByComma line)) prereq
  end.

(** A diagnostic justified by some line of the file. *)
Definition diagnosed (allCourseNumbers : gset string) (lines : list string)
    (e : ErrLine) : Prop :=
  ∃ i line, lines !! i = Some line ∧
            diagnosedAt allCourseNumbers (take i lines) line i e.

(** [token] is [piece] without the white space at its two ends. *)
Definition trimmedOf (piece token : string) : Prop :=
  ∃ front rear,
    piece = front +:+ token +:+ rear ∧
    allSpace front = true ∧ allSpace rear = true ∧
    (∀ c, String.get 0 token = Some c → isspace c = false) ∧
    (∀ c, back token = Some c → isspace c = false).

(** The lines of a file: strings without newline that, each followed by a
    newline, make up the content of the file, or the content and a newline
    when the content is not empty and does not end with one. *)
Definition linesOf (content : string) (lines : list string) : Prop :=
  Forall (λ line, countChar "010" line = 0) lines ∧
  delimited "010" lines =
    if decide (content = "" ∨ back content = Some "010"%char) then content
    else content +:+ String "010" "".

(** [c] is the course of number [k] built from the first line, in the order
    of the file, that builds a course of that number. *)
Definition firstBuilt (allCourseNumbers : gset string) (lines : list string)
    (k : string) (c : Course) : Prop :=
  ∃ i line,
    lines !! i = Some line ∧
    builtCourse allCourseNumbers line = Some c ∧ courseNumber c = k ∧
    ∀ j line' c', j < i → lines !! j = Some line' →
      builtCourse allCourseNumbers line' = Some c' → courseNumber c' ≠ k.


(** The message of pass 1 only, and the message of pass 2 only. *)
Definition duplicateError (e : ErrLine) : bool :=
  match e with ErrDuplicate _ _ => true | _ => false end.

Definition prereqError (e : ErrLine) : bool :=
  match e with ErrInvalidPrereq _ _ _ => true | _ => false end.

(** A file whose lines are those of the scenario in another order, with a
    prerequisite declared after its use. *)
Definition forwardFile : string :=
  "CS201, Data Structures, CS101
CS101, Intro to CS,
".

Definition backwardFile : string :=
  "CS101, Intro to CS,
CS201, Data Structures, CS101
".

(** ** The menu loop *)

(** [isdigit] in the "C" locale. *)
Definition isdigit (c : ascii) : bool :=
  let n := N_of_ascii c in
  (48 <=? n)%N && (n <=? 57)%N.

(** The digit loop of [strtol] in base 10: the value of the digits read so
    far and their number. *)
Fixpoint scanDigits (s : string) (acc : Z) (count : nat) : Z * nat :=
  match s with
  | EmptyString => (acc, count)
  | String c s' =>
      if isdigit c
      then scanDigits s' (10 * acc + (Z.of_N (N_of_ascii c) - 48))%Z (S count)
      else (acc, count)
  end.

(** [std::stoi(str, &idx)]: white space is skipped, then an optional sign
    and decimal digits are read; the result is the value and [idx], the
    number of characters processed. [None] when [stoi] throws:
    [std::invalid_argument] without a digit, [std::out_of_range] for a value
    that is not an [int]. *)
Definition stoi (str : string) : option (Z * nat) :=
  let '(negative, signLength, digits) :=
    match dropSpaceFront str with
    | String "-" s' => (true, 1, s')
    | String "+" s' => (false, 1, s')
    | s => (false, 0, s)
    end%char in
  let '(value, count) := scanDigits digits 0 0 in
  if decide (count = 0) then None
  else
    let val := (if negative then - value else value)%Z in
    if decide (INT_MIN ≤ val ≤ INT_MAX)%Z
    then Some (val, trimStart str + signLength + count)
    else None.

(** [std::getline(std::cin, line)] on the unread characters of [std::cin]:
    [None] when the call fails, at the end of the input. *)
Definition cinGetline (cin : string) : option (string * string) :=
  match cin with
  | EmptyString => None
  | _ => Some (getline "010" cin)
  end.

(** [readIntChoice]: [Some val] when it returns [true] with
    [outChoice = val], [None] when it returns [false] (and leaves [outChoice]
    as it was); and the characters of [std::cin] left unread. *)
Definition readIntChoice (cin : string) : option Z * string :=
  match cinGetline cin with
  | None => (None, cin)
  | Some (line, cin') =>
      let line := trim line in
      if decide (line = "") then (None, cin')
      else
        match stoi line with
        | Some (val, idx) =>
            if decide (idx ≠ String.length line) then (None, cin')
            else (Some val, cin')
        | None => (None, cin')
        end
  end.

(** The integer a trimmed line denotes in the decimal notation of the
    standard library ([DecimalString], [Z.of_int]): digits, after an
    optional sign [-] or [+]; [None] when the line is not of that form or
    the integer is not an [int]. *)
Definition decimalChoice (line : string) : option Z :=
  d ← match line with
      | String "+" digits =>
          Decimal.Pos <$> DecimalString.NilZero.uint_of_string digits
      | _ => DecimalString.NilZero.int_of_string line
      end%char;
  if decide (INT_MIN ≤ Z.of_int d ≤ INT_MAX)%Z then Some (Z.of_int d) else None.

(** What [readIntChoice] makes of the result of [stoi] on [line]. *)
Definition choiceOf (line : string) (r : option (Z * nat)) : option Z :=
  match r with
  | Some (val, idx) => if decide (idx ≠ String.length line) then None else Some val
  | None => None
  end.

(** The main program. [std::cin] is the string of its unread characters,
    [std::cout] and [std::cerr] the lists of what was written; the file
    system does not change while the program runs. *)
Module Main.

(** What the program writes to [std::cout]: its own messages, and the lines
    of the two queries. *)
Inductive Out :=
  | Welcome                  (* Welcome to ABCU Advising Program *)
  | AskFileName              (* Enter the course data file name: *)
  | Menu                     (* the six lines of [printMenu] *)
  | InvalidInput             (* Invalid input. Please enter 1, 2, 3, or 9. *)
  | Loaded (courses : nat)   (* Data loaded successfully (<n> courses). *)
  | NoCourses                (* No courses loaded. Check errors above ... *)
  | LoadFirst                (* Please load data first (Option 1). *)
  | AskCourseNumber          (* Enter a course number (e.g., CS200): *)
  | Goodbye                  (* Goodbye. *)
  | InvalidOption            (* Invalid option. Please enter 1, 2, 3, or 9. *)
  | Query (line : OutLine).

(** The streams and the variables of [main]. *)
Record State := MkState {
  cin : string;
  cout : list Out;
  cerr : list ErrLine;
  coursesTable : CourseTable;
  dataLoaded : bool;
  fileName : string;
}.

Definition print (st : State) (out : list Out) : State :=
  MkState (cin st) (cout st ++ out) (cerr st) (coursesTable st) (dataLoaded st)
    (fileName st).

(** [std::getline(std::cin, s)], the result unchecked: [s] is left as it
    was ([old]) when the call fails. *)
Definition readLine (st : State) (old : string) : string * State :=
  match cinGetline (cin st) with
  | Some (line, rest) =>
      (line, MkState rest (cout st) (cerr st) (coursesTable st) (dataLoaded st)
               (fileName st))
  | None => (old, st)
  end.

(** The prompt for the file name (lines 285-287 and 299-301):
    [std::getline(std::cin, fileName); fileName = trim(fileName)]. *)
Definition askFileName (st : State) : State :=
  let st := print st [AskFileName] in
  let '(line, st) := readLine st (fileName st) in
  MkState (cin st) (cout st) (cerr st) (coursesTable st) (dataLoaded st) (trim line).

(** How an iteration of the menu loop ends: with the loop going on, with
    [break] and then [return 0], or with the exception of
    [printCourseListSorted] leaving [main]. *)
Inductive Outcome :=
  | Running (st : State)
  | Returned (st : State)
  | Thrown (st : State).

(** Body of the loop [while (true)] of [main] (lines 291-341). *)
Definition iteration (fs : FileSystem) (st : State) : Outcome :=
  let st := print st [Menu] in
  let '(choice, rest) := readIntChoice (cin st) in
  let st := MkState rest (cout st) (cerr st) (coursesTable st) (dataLoaded st)
              (fileName st) in
  match choice with
  | None => Running (print st [InvalidInput])
  | Some choice =>
      if decide (choice = 1)%Z then
        let st := if decide (fileName st = "") then askFileName st else st in
        let '(table, diagnostics) := loadCoursesFromFile fs (fileName st) in
        if decide (table ≠ ∅)
        then Running (MkState (cin st) (cout st ++ [Loaded (size table)])
                        (cerr st ++ diagnostics) table true (fileName st))
        else Running (MkState (cin st) (cout st ++ [NoCourses])
                        (cerr st ++ diagnostics) table false (fileName st))
      else if decide (choice = 2)%Z then
        if dataLoaded st then
          match printCourseListSorted (coursesTable st) with
          | Some out => Running (print st (Query <$> out))
          | None => Thrown st
          end
        else Running (print st [LoadFirst])
      else if decide (choice = 3)%Z then
        if dataLoaded st then
          let st := print st [AskCourseNumber] in
          let '(courseNumber, st) := readLine st "" in
          Running (print st (Query <$> printCourseInfo (coursesTable st) courseNumber))
        else Running (print st [LoadFirst])
      else if decide (choice = 9)%Z then Returned (print st [Goodbye])
      else Running (print st [InvalidOption])
  end.

(** [main] up to the loop (lines 278-289). *)
Definition start (stdin : string) : State :=
  askFileName (MkState stdin [Welcome] [] ∅ false "").

(** At most [fuel] iterations of the loop: [Running] when it has not ended
    after them. *)
Fixpoint loop (fuel : nat) (fs : FileSystem) (st : State) : Outcome :=
  match fuel with
  | 0 => Running st
  | S fuel' =>
      match iteration fs st with
      | Running st' => loop fuel' fs st'
      | outcome => outcome
      end
  end.

Definition main (fuel : nat) (fs : FileSystem) (stdin : string) : Outcome :=
  loop fuel fs (start stdin).

(** The state an outcome carries. *)
Definition state (o : Outcome) : State :=
  match o with Running st | Returned st | Thrown st => st end.

End Main.

(** A session: the file name, a listing refused, a load, a listing, a
    lookup, and the exit. *)
Definition sessionInput : string :=
  "courses.csv
2
1
2
3
 cs201
9
".

(** What holds of the variables of [main] whenever the menu is shown: the
    flag [dataLoaded] is set exactly when the table is not empty, the table
    is empty or the result of loading [fileName], and the notice that no
    course data is loaded has not been written by a query. *)
Definition mainInvariant (fs : FileSystem) (st : Main.State) : Prop :=
  (Main.dataLoaded st = true ↔ Main.coursesTable st ≠ ∅) ∧
  (Main.coursesTable st = ∅ ∨
   Main.coursesTable st = (loadCoursesFromFile fs (Main.fileName st)).1) ∧
  Main.Query OutNoData ∉ Main.cout st.

(** A decidable proposition about concrete data, by evaluation of its
    decision procedure. *)
Ltac decide_by_compute := apply (bool_decide_unpack _); by vm_compute.

(** ** Characters and [trim] *)

Example trim_ex : trim "  cs 200 	" = "cs 200".
Proof. reflexivity. Qed.

Example split_ex : splitByComma "CS300, Algorithms ,, cs201,CS999," =
                   ["CS300"; "Algorithms"; ""; "cs201"; "CS999"; ""].
Proof. reflexivity. Qed.

Lemma isspace_toupper c : isspace (toupper c) = isspace c.
Proof. by destruct c as [[] [] [] [] [] [] [] []]. Qed.

Lemma toupper_idemp c : toupper (toupper c) = toupper c.
Proof. by destruct c as [[] [] [] [] [] [] [] []]. Qed.

Lemma trimEnd_le s start e : trimEnd s start e ≤ e.
Proof.
  induction e as [|e IH]; simpl; [lia|].
  destruct (_ && _); lia.
Qed.

Lemma trimEnd_ge s start e : start ≤ e → start ≤ trimEnd s start e.
Proof.
  induction e as [|e IH]; simpl; [lia|]. intros Hle.
  destruct (start <? S e) eqn:Hlt; simpl; [|lia].
  apply Nat.ltb_lt in Hlt. destruct (isspaceAt s e); [apply IH|]; lia.
Qed.

Lemma trimStart_le s : trimStart s ≤ String.length s.
Proof.
  induction s as [|c s IH]; simpl; [lia|]. destruct (isspace c); lia.
Qed.

(** The call [s.substr(start, end - start)] of [trim] is in range:
    [start <= end <= s.size()], so it does not throw. *)
Lemma trim_in_range s :
  trimStart s ≤ trimEnd s (trimStart s) (String.length s) ≤ String.length s.
Proof.
  split; [apply trimEnd_ge, trimStart_le|apply trimEnd_le].
Qed.

(** The second loop on [String c s] is the loop on [s], one index up. *)
Lemma trimEnd_shift c s start e :
  trimEnd (String c s) (S start) (S e) = S (trimEnd s start e).
Proof.
  induction e as [|e IH].
  - simpl. destruct start; reflexivity.
  - change (trimEnd (String c s) (S start) (S (S e)))
      with (if (S start <? S (S e)) && isspaceAt (String c s) (S e)
            then trimEnd (String c s) (S start) (S e) else S (S e)).
    rewrite IH. simpl trimEnd.
    change (isspaceAt (String c s) (S e)) with (isspaceAt s e).
    change (S start <? S (S e)) with (start <? S e).
    by destruct (_ && _).
Qed.

Lemma trim_cons_space c s : isspace c = true → trim (String c s) = trim s.
Proof.
  intros Hc. unfold trim. simpl trimStart. rewrite Hc.
  simpl String.length. rewrite trimEnd_shift. reflexivity.
Qed.

(** From index 0 the second loop goes one step further than from index 1
    exactly when it reaches a white first character. *)
Lemma trimEnd_zero c s e :
  trimEnd (String c s) 0 (S e) =
  match trimEnd s 0 e with
  | 0 => if isspace c then 0 else 1
  | S k => S (S k)
  end.
Proof.
  induction e as [|e IH].
  - simpl. unfold isspaceAt. simpl. by destruct (isspace c).
  - change (trimEnd (String c s) 0 (S (S e)))
      with (if isspaceAt s e then trimEnd (String c s) 0 (S e) else S (S e)).
    rewrite IH. simpl trimEnd. by destruct (isspaceAt s e).
Qed.

Lemma substring_dropSpaceBack s :
  String.substring 0 (trimEnd s 0 (String.length s)) s = dropSpaceBack s.
Proof.
  induction s as [|c s IH]; [done|].
  simpl String.length. rewrite trimEnd_zero. simpl dropSpaceBack.
  rewrite <-IH.
  pose proof (trimEnd_le s 0 (String.length s)) as Hle.
  destruct (trimEnd s 0 (String.length s)) as [|k] eqn:Hk.
  - destruct s; simpl; by destruct (isspace c).
  - destruct s as [|c' s]; [simpl in Hle; lia|]. reflexivity.
Qed.

Lemma trim_cons_nonspace c s :
  isspace c = false → trim (String c s) = dropSpaceBack (String c s).
Proof.
  intros Hc. unfold trim. simpl trimStart. rewrite Hc, Nat.sub_0_r.
  apply substring_dropSpaceBack.
Qed.

(** [trim] removes the leading, then the trailing white space. *)
Lemma trim_eq s : trim s = dropSpaceBack (dropSpaceFront s).
Proof.
  induction s as [|c s IH]; [done|].
  simpl dropSpaceFront. destruct (isspace c) eqn:Hc.
  - by rewrite trim_cons_space.
  - by rewrite trim_cons_nonspace.
Qed.

Lemma dropSpaceFront_head s :
  dropSpaceFront s = "" ∨
  ∃ c t, dropSpaceFront s = String c t ∧ isspace c = false.
Proof.
  induction s as [|c s IH]; [by left|]. simpl.
  destruct (isspace c) eqn:Hc; [done|]. right. by exists c, s.
Qed.

Lemma dropSpaceBack_idemp s : dropSpaceBack (dropSpaceBack s) = dropSpaceBack s.
Proof.
  induction s as [|c s IH]; [done|]. simpl.
  destruct (dropSpaceBack s) as [|a r] eqn:Hr.
  - destruct (isspace c) eqn:Hc; simpl; by rewrite ?Hc.
  - change (dropSpaceBack (String c (String a r)))
      with (match dropSpaceBack (String a r) with
            | EmptyString => if isspace c then EmptyString else String c EmptyString
            | r0 => String c r0
            end).
    by rewrite IH.
Qed.

Lemma dropSpaceBack_cons_nonspace c s :
  isspace c = false → ∃ r, dropSpaceBack (String c s) = String c r.
Proof.
  intros Hc. simpl. destruct (dropSpaceBack s); rewrite ?Hc; eauto.
Qed.

Lemma dropSpaceFront_trim s : dropSpaceFront (trim s) = trim s.
Proof.
  rewrite trim_eq. destruct (dropSpaceFront_head s) as [->|(c & t & -> & Hc)]; [done|].
  destruct (dropSpaceBack_cons_nonspace c t Hc) as [r ->]. simpl. by rewrite Hc.
Qed.

Lemma trim_idemp s : trim (trim s) = trim s.
Proof.
  rewrite (trim_eq (trim s)), dropSpaceFront_trim, trim_eq.
  apply dropSpaceBack_idemp.
Qed.

Lemma dropSpaceFront_allSpace s : allSpace s = true → dropSpaceFront s = "".
Proof.
  induction s as [|c s IH]; [done|]. simpl.
  intros [-> ?]%andb_true_iff. auto.
Qed.

Lemma dropSpaceBack_empty s : dropSpaceBack s = "" → allSpace s = true.
Proof.
  induction s as [|c s IH]; [done|]. simpl.
  destruct (dropSpaceBack s); [|done].
  destruct (isspace c); [|done]. auto.
Qed.

Lemma dropSpaceFront_empty s : dropSpaceFront s = "" → allSpace s = true.
Proof.
  induction s as [|c s IH]; [done|]. simpl.
  destruct (isspace c); [|done]. auto.
Qed.

(** [trim(s).empty()] holds exactly for the strings made of white space. *)
Lemma trim_empty_iff s : trim s = "" ↔ allSpace s = true.
Proof.
  rewrite trim_eq. split.
  - intros H%dropSpaceBack_empty.
    destruct (dropSpaceFront_head s) as [Hs|(c & t & Hs & Hc)].
    + by apply dropSpaceFront_empty.
    + rewrite Hs in H. simpl in H. by rewrite Hc in H.
  - intros H. by rewrite dropSpaceFront_allSpace.
Qed.

Lemma upcase_empty s : upcase s = "" ↔ s = "".
Proof. by destruct s. Qed.

Lemma upcase_idemp s : upcase (upcase s) = upcase s.
Proof. induction s as [|c s IH]; [done|]. simpl. by rewrite toupper_idemp, IH. Qed.

Lemma dropSpaceFront_upcase s : dropSpaceFront (upcase s) = upcase (dropSpaceFront s).
Proof.
  induction s as [|c s IH]; [done|]. simpl. rewrite isspace_toupper.
  by destruct (isspace c).
Qed.

Lemma dropSpaceBack_upcase s : dropSpaceBack (upcase s) = upcase (dropSpaceBack s).
Proof.
  induction s as [|c s IH]; [done|]. simpl. rewrite IH, isspace_toupper.
  destruct (dropSpaceBack s); simpl; [by destruct (isspace c)|done].
Qed.

Lemma trim_upcase s : trim (upcase s) = upcase (trim s).
Proof. by rewrite !trim_eq, dropSpaceFront_upcase, dropSpaceBack_upcase. Qed.

(** A normalized course number is a fixed point of [trim], of the
    upper-casing loop and of [normalizeCourseNumber]. *)
Lemma trim_normalize s : trim (normalizeCourseNumber s) = normalizeCourseNumber s.
Proof. unfold normalizeCourseNumber. by rewrite trim_upcase, trim_idemp. Qed.

Lemma upcase_normalize s : upcase (normalizeCourseNumber s) = normalizeCourseNumber s.
Proof. apply upcase_idemp. Qed.

Lemma normalize_idemp s :
  normalizeCourseNumber (normalizeCourseNumber s) = normalizeCourseNumber s.
Proof.
  unfold normalizeCourseNumber at 1. by rewrite trim_normalize, upcase_normalize.
Qed.

Lemma islower_toupper c : islower (toupper c) = false.
Proof. by destruct c as [[] [] [] [] [] [] [] []]. Qed.

Lemma back_String c s : back (String c s) = match s with "" => Some c | _ => back s end.
Proof. by destruct s. Qed.

Lemma back_dropSpaceBack s c : back (dropSpaceBack s) = Some c → isspace c = false.
Proof.
  induction s as [|a s IH]; [done|]. simpl dropSpaceBack.
  destruct (dropSpaceBack s) as [|b r].
  - destruct (isspace a) eqn:Ha; [done|]. by intros [= <-].
  - rewrite back_String. apply IH.
Qed.

Lemma get_0_upcase s : String.get 0 (upcase s) = toupper <$> String.get 0 s.
Proof. by destruct s. Qed.

Lemma back_upcase s : back (upcase s) = toupper <$> back s.
Proof.
  induction s as [|a s IH]; [done|].
  change (upcase (String a s)) with (String (toupper a) (upcase s)).
  rewrite !back_String, IH. by destruct s.
Qed.

Lemma get_upcase_islower s i c : String.get i (upcase s) = Some c → islower c = false.
Proof.
  revert i. induction s as [|a s IH]; intros i; [done|].
  destruct i as [|i]; simpl; [|apply IH].
  intros [= <-]. apply islower_toupper.
Qed.

(** The result of [normalizeCourseNumber], character by character: no white
    space at either end, no lower-case letter. *)
Lemma normalizeCourseNumber_normalized s : normalizedString (normalizeCourseNumber s).
Proof.
  unfold normalizeCourseNumber. split_and!.
  - intros c. rewrite get_0_upcase, <-dropSpaceFront_trim.
    destruct (dropSpaceFront_head (trim s)) as [->|(a & t & -> & Ha)]; [done|].
    simpl. intros [= <-]. by rewrite isspace_toupper.
  - intros c. rewrite back_upcase, trim_eq.
    destruct (back _) as [a|] eqn:Hback; [|done].
    simpl. intros [= <-]. rewrite isspace_toupper. by eapply back_dropSpaceBack.
  - intros i c. apply get_upcase_islower.
Qed.

(** ** [std::getline] loops *)

Example getlines_ex : getlines "," "a,,b," = ["a"; ""; "b"].
Proof. reflexivity. Qed.

Lemma getline_rest_length delim c s :
  String.length (getline delim (String c s)).2 ≤ String.length s.
Proof.
  revert c. induction s as [|a s IH]; intros c; simpl.
  - destruct (decide (c = delim)); simpl; lia.
  - destruct (decide (c = delim)); simpl; [lia|].
    specialize (IH a). simpl in IH.
    destruct (decide (a = delim)); simpl in *; [lia|].
    destruct (getline delim s); simpl in *. lia.
Qed.

(** Fuel above the length of the stream is never exhausted. *)
Lemma getlineLoop_fuel delim fuel1 fuel2 s :
  String.length s < fuel1 → String.length s < fuel2 →
  getlineLoop fuel1 delim s = getlineLoop fuel2 delim s.
Proof.
  revert fuel2 s. induction fuel1 as [|fuel1 IH]; intros fuel2 s H1 H2; [lia|].
  destruct fuel2 as [|fuel2]; [lia|].
  destruct s as [|c s]; [done|].
  change (getlineLoop (S fuel1) delim (String c s))
    with (let '(token, rest) := getline delim (String c s) in
          token :: getlineLoop fuel1 delim rest).
  change (getlineLoop (S fuel2) delim (String c s))
    with (let '(token, rest) := getline delim (String c s) in
          token :: getlineLoop fuel2 delim rest).
  pose proof (getline_rest_length delim c s) as Hlen.
  destruct (getline delim (String c s)) as [token rest]. simpl in *.
  f_equal. apply IH; lia.
Qed.

Lemma getlines_step delim c s :
  getlines delim (String c s) =
  (getline delim (String c s)).1 :: getlines delim (getline delim (String c s)).2.
Proof.
  unfold getlines at 1.
  change (getlineLoop (S (String.length (String c s))) delim (String c s))
    with (let '(token, rest) := getline delim (String c s) in
          token :: getlineLoop (String.length (String c s)) delim rest).
  pose proof (getline_rest_length delim c s) as Hlen.
  destruct (getline delim (String c s)) as [token rest].
  simpl in Hlen. cbn [fst snd String.length]. f_equal.
  apply getlineLoop_fuel; lia.
Qed.

Lemma getlines_fuel delim fuel s :
  String.length s < fuel → getlineLoop fuel delim s = getlines delim s.
Proof. intros H. apply getlineLoop_fuel; [done|lia]. Qed.

(** The strings extracted, by recursion on the stream. *)
Lemma getlines_String delim c s :
  getlines delim (String c s) =
  if decide (c = delim) then "" :: getlines delim s
  else match getlines delim s with
       | [] => [String c ""]
       | token :: tokens => String c token :: tokens
       end.
Proof.
  rewrite getlines_step. simpl.
  destruct (decide (c = delim)); [done|].
  destruct s as [|a s]; [done|].
  rewrite (getlines_step delim a s).
  by destruct (getline delim (String a s)).
Qed.

Lemma back_append_char s c : back (s +:+ String c "") = Some c.
Proof.
  induction s as [|a s IH]; [done|].
  change (String a s +:+ String c "") with (String a (s +:+ String c "")).
  rewrite back_String, IH. by destruct s.
Qed.

Lemma allSpace_no_comma s : allSpace s = true → back s ≠ Some ","%char.
Proof.
  induction s as [|c s IH]; [done|]. simpl allSpace.
  intros [Hc Hs]%andb_true_iff. rewrite back_String.
  destruct s; [|by apply IH]. intros [= ->]. done.
Qed.

(** A non-empty line of white space is extracted whole, as one token. *)
Lemma getlines_allSpace s :
  allSpace s = true → s ≠ "" → getlines "," s = [s].
Proof.
  induction s as [|c s IH]; [done|]. simpl allSpace.
  intros [Hc Hs]%andb_true_iff _. rewrite getlines_String.
  destruct (decide (c = ","%char)) as [->|_]; [done|].
  destruct s as [|a s]; [done|]. by rewrite IH.
Qed.

Lemma back_countChar d s : back s = Some d → 0 < countChar d s.
Proof.
  induction s as [|c s IH]; [done|]. rewrite back_String. simpl.
  destruct s.
  - intros [= ->]. rewrite decide_True by done. lia.
  - intros H%IH. lia.
Qed.

Lemma countChar_String d c s :
  countChar d (String c s) = (if decide (c = d) then 1 else 0) + countChar d s.
Proof. done. Qed.

(** [n] delimiters end [n] extractions; one more extraction succeeds when
    characters follow the last delimiter. *)
Lemma getlines_length d s :
  (back s = Some d → length (getlines d s) = countChar d s) ∧
  (s ≠ "" → back s ≠ Some d → length (getlines d s) = S (countChar d s)).
Proof.
  induction s as [|c s [IH1 IH2]]; [done|].
  rewrite getlines_String, back_String, countChar_String.
  destruct (decide (c = d)) as [->|Hc]; simpl length.
  - destruct s as [|a s]; [done|].
    split; [intros H; by rewrite IH1|intros _ H; by rewrite IH2].
  - destruct s as [|a s]; [split; [congruence|done]|].
    destruct (getlines d (String a s)) as [|t ts] eqn:Hg.
    + exfalso. destruct (decide (back (String a s) = Some d)) as [Hb|Hb].
      * pose proof (back_countChar _ _ Hb). specialize (IH1 Hb).
        simpl length in IH1. lia.
      * by specialize (IH2 ltac:(done) Hb).
    + split; [intros H; specialize (IH1 H)|intros _ H; specialize (IH2 ltac:(done) H)];
        cbn [length] in *; lia.
Qed.

(** ** Pass 1 *)

Lemma lineNumber_pass1Body st line :
  lineNumber (pass1Body st line) = increment (lineNumber st).
Proof.
  unfold pass1Body. repeat (case_decide || case_match); done.
Qed.

(** Pass 1 adds the course number a line declares, and nothing else. *)
Lemma vars_pass1Body st line :
  vars (pass1Body st line) =
  match declaredBy line with
  | Some courseNum => {[courseNum]} ∪ vars st
  | None => vars st
  end.
Proof.
  unfold pass1Body, declaredBy.
  destruct (decide (trim line = "")); [done|].
  destruct (splitByComma line) as [|token0 [|token1 ?]]; [done..|]. simpl.
  destruct (decide (_ ∨ _)); [done|].
  destruct (decide (_ ∈ _)) as [Hin|]; [|done]. simpl.
  symmetry. apply subseteq_union_1_L. by apply singleton_subseteq_l.
Qed.

Lemma vars_foldl_pass1Body st lines :
  vars (foldl pass1Body st lines) = list_to_set (omap declaredBy lines) ∪ vars st.
Proof.
  revert st. induction lines as [|line lines IH]; intros st; simpl.
  - by rewrite (left_id_L ∅ (∪)).
  - rewrite IH, vars_pass1Body. destruct (declaredBy line) as [k|]; simpl; [|done].
    rewrite (assoc_L (∪)). f_equal. apply (comm_L (∪)).
Qed.

Lemma vars_pass1 lines : vars (pass1 lines) = list_to_set (omap declaredBy lines).
Proof. unfold pass1. rewrite vars_foldl_pass1Body. simpl. apply (right_id_L ∅ (∪)). Qed.

Lemma elem_of_vars_pass1 lines k :
  k ∈ vars (pass1 lines) ↔ ∃ line, line ∈ lines ∧ declaredBy line = Some k.
Proof. by rewrite vars_pass1, elem_of_list_to_set, list_elem_of_omap. Qed.

(** ** Pass 2 *)

Section pass2.

(** The set [allCourseNumbers] pass 2 checks prerequisites against. *)
Context (acn : gset string).

Lemma lineNumber_pass2Body st line :
  lineNumber (pass2Body acn st line) = increment (lineNumber st).
Proof.
  unfold pass2Body. repeat (case_decide || case_match); done.
Qed.

(** Pass 2 inserts the course a line builds, and nothing else. *)
Lemma vars_pass2Body st line :
  vars (pass2Body acn st line) =
  match builtCourse acn line with
  | Some c => insertCourse (vars st) c
  | None => vars st
  end.
Proof.
  unfold pass2Body, builtCourse.
  repeat (case_decide || case_match); by simplify_eq/=.
Qed.

Lemma vars_foldl_pass2Body st lines :
  vars (foldl (pass2Body acn) st lines) =
  foldl insertCourse (vars st) (omap (builtCourse acn) lines).
Proof.
  revert st. induction lines as [|line lines IH]; intros st; simpl; [done|].
  rewrite IH, vars_pass2Body. by destruct (builtCourse acn line).
Qed.

Lemma vars_pass2 cerr0 lines :
  vars (pass2 acn cerr0 lines) = foldl insertCourse ∅ (omap (builtCourse acn) lines).
Proof. apply vars_foldl_pass2Body. Qed.

(** A line that builds a course declares its number. *)
Lemma builtCourse_declaredBy line c :
  builtCourse acn line = Some c → declaredBy line = Some (courseNumber c).
Proof.
  unfold builtCourse, declaredBy.
  repeat (case_decide || case_match); intros; by simplify_eq/=.
Qed.

Lemma collectPrereqs_valid tokens :
  invalidPrereq acn tokens = None →
  Forall (λ p, p ≠ "" ∧ normalizeCourseNumber p = p ∧ p ∈ acn) (collectPrereqs tokens).
Proof.
  induction tokens as [|token tokens IH]; simpl; [by constructor|].
  destruct (decide (normalizeCourseNumber token = "")); [done|].
  destruct (decide (normalizeCourseNumber token ∈ acn)); [|done].
  intros Hvalid. constructor; [|by apply IH]. by rewrite normalize_idemp.
Qed.

(** The first invalid prerequisite is one of the prerequisites collected. *)
Lemma invalidPrereq_collect tokens p :
  invalidPrereq acn tokens = Some p → p ∈ collectPrereqs tokens ∧ p ∉ acn.
Proof.
  induction tokens as [|token tokens IH]; simpl; [done|].
  destruct (decide (normalizeCourseNumber token = "")); [done|].
  destruct (decide (normalizeCourseNumber token ∈ acn)).
  - intros [??]%IH. split; [by right|done].
  - intros [= <-]. split; [by left|done].
Qed.

Lemma invalidPrereq_None tokens :
  invalidPrereq acn tokens = None ↔ ∀ p, p ∈ collectPrereqs tokens → p ∈ acn.
Proof.
  split.
  - intros H%collectPrereqs_valid p Hp.
    rewrite Forall_forall in H. by apply H.
  - intros H. destruct (invalidPrereq acn tokens) as [p|] eqn:Hp; [|done].
    apply invalidPrereq_collect in Hp as [Hin Hnot]. by apply H in Hin.
Qed.

(** What every course built by pass 2 satisfies. *)
Lemma builtCourse_wf line c :
  builtCourse acn line = Some c →
  courseNumber c ≠ "" ∧ title c ≠ "" ∧
  normalizeCourseNumber (courseNumber c) = courseNumber c ∧
  Forall (λ p, p ≠ "" ∧ normalizeCourseNumber p = p ∧ p ∈ acn) (prerequisites c).
Proof.
  unfold builtCourse.
  destruct (decide (trim line = "")); [done|].
  destruct (splitByComma line) as [|token0 [|token1 prereqTokens]]; [done..|].
  simpl. destruct (decide (_ ∨ _)) as [|Hne]; [done|].
  destruct (invalidPrereq acn prereqTokens) eqn:Hvalid; [done|].
  intros [= <-]. simpl. apply Decidable.not_or in Hne as [??].
  split_and!; [done|done|apply normalize_idemp|].
  by apply collectPrereqs_valid.
Qed.

End pass2.

(** Guarded insertion keeps what is in the table. *)
Lemma insertCourse_lookup table c k :
  insertCourse table c !! k =
  match table !! k with
  | Some c' => Some c'
  | None => if decide (courseNumber c = k) then Some c else None
  end.
Proof.
  unfold insertCourse. case_decide as Hc.
  - rewrite lookup_insert. case_decide; simplify_eq; [by rewrite Hc|].
    by destruct (table !! k).
  - destruct (table !! k) eqn:Hk; [done|]. case_decide; by simplify_eq.
Qed.

Lemma foldl_insertCourse_keep table cs k c :
  table !! k = Some c → foldl insertCourse table cs !! k = Some c.
Proof.
  revert table. induction cs as [|c' cs IH]; intros table H; simpl; [done|].
  apply IH. by rewrite insertCourse_lookup, H.
Qed.

Lemma foldl_insertCourse_elem table cs k c :
  foldl insertCourse table cs !! k = Some c →
  table !! k = Some c ∨ (c ∈ cs ∧ courseNumber c = k).
Proof.
  revert table. induction cs as [|c' cs IH]; intros table H; simpl in *; [by left|].
  apply IH in H as [H|[??]]; [|right; split; [by right|done]].
  rewrite insertCourse_lookup in H. destruct (table !! k); [by left|].
  case_decide; simplify_eq. right. split; [by left|done].
Qed.

Lemma foldl_insertCourse_None table cs k :
  table !! k = None → (∀ c, c ∈ cs → courseNumber c ≠ k) →
  foldl insertCourse table cs !! k = None.
Proof.
  intros Hk Hcs. destruct (foldl insertCourse table cs !! k) as [c|] eqn:H; [|done].
  apply foldl_insertCourse_elem in H as [H|[Hin Hc]]; [congruence|].
  by apply Hcs in Hin.
Qed.

(** The first course of a number wins. *)
Lemma foldl_insertCourse_first cs1 c cs2 :
  (∀ c', c' ∈ cs1 → courseNumber c' ≠ courseNumber c) →
  foldl insertCourse ∅ (cs1 ++ c :: cs2) !! courseNumber c = Some c.
Proof.
  intros H. rewrite foldl_app. simpl. apply foldl_insertCourse_keep.
  rewrite insertCourse_lookup, foldl_insertCourse_None; [|done..].
  by rewrite decide_True.
Qed.

Lemma loadCoursesFromFile_Some fs fileName content :
  fs fileName = Some content →
  loadCoursesFromFile fs fileName =
  let p1 := pass1 (fileLines content) in
  let p2 := pass2 (vars p1) (cerr p1) (fileLines content) in
  (vars p2, cerr p2).
Proof. intros H. unfold loadCoursesFromFile. by rewrite H. Qed.

(** Every record of a loaded table was built by pass 2 from a line of the
    file, against the course numbers pass 1 declared. *)
Lemma loadCoursesFromFile_lookup fs fileName k c :
  (loadCoursesFromFile fs fileName).1 !! k = Some c →
  ∃ content line,
    fs fileName = Some content ∧ line ∈ fileLines content ∧
    builtCourse (declaredCourseNumbers fs fileName) line = Some c ∧
    courseNumber c = k.
Proof.
  unfold declaredCourseNumbers.
  destruct (fs fileName) as [content|] eqn:Hfs.
  - rewrite (loadCoursesFromFile_Some _ _ _ Hfs). simpl. rewrite vars_pass2.
    intros [H|[Hc ?]]%foldl_insertCourse_elem; [by rewrite lookup_empty in H|].
    apply list_elem_of_omap in Hc as (line & ? & ?). by exists content, line.
  - unfold loadCoursesFromFile. rewrite Hfs. simpl. by rewrite lookup_empty.
Qed.

(** The table returned for a file that opens: the guarded insertions, in
    the order of the file, of the courses pass 2 builds. *)
Lemma loadCoursesFromFile_table fs fileName content :
  fs fileName = Some content →
  (loadCoursesFromFile fs fileName).1 =
  foldl insertCourse ∅
    (omap (builtCourse (declaredCourseNumbers fs fileName)) (fileLines content)).
Proof.
  intros Hfs. unfold declaredCourseNumbers.
  rewrite (loadCoursesFromFile_Some _ _ _ Hfs), Hfs. simpl. apply vars_pass2.
Qed.

(** The first line that builds a course of a given number provides the
    record stored under that number. *)
Lemma loadCoursesFromFile_first_built fs fileName content pre line post c :
  fs fileName = Some content →
  fileLines content = pre ++ line :: post →
  builtCourse (declaredCourseNumbers fs fileName) line = Some c →
  (∀ line' c', line' ∈ pre →
     builtCourse (declaredCourseNumbers fs fileName) line' = Some c' →
     courseNumber c' ≠ courseNumber c) →
  (loadCoursesFromFile fs fileName).1 !! courseNumber c = Some c.
Proof.
  intros Hfs Hlines Hc Hpre.
  rewrite (loadCoursesFromFile_table _ _ _ Hfs), Hlines, omap_app. simpl. rewrite Hc.
  apply foldl_insertCourse_first.
  intros c' (line' & ? & ?)%list_elem_of_omap. by eapply Hpre.
Qed.

(** ** The tokenizer *)

(** A line of white space only: the tokenizer returns no token for the empty
    line and the single token [""] for any other. *)
Lemma splitByComma_allSpace line :
  allSpace line = true →
  splitByComma line = if decide (line = "") then [] else [""].
Proof.
  intros Hsp. unfold splitByComma.
  rewrite decide_False by by apply allSpace_no_comma.
  case_decide as Hline; [by subst|].
  rewrite getlines_allSpace by done. simpl. f_equal. by apply trim_empty_iff.
Qed.

(** C8, as the code has it. For every empty or white-space-only line the
    tokenizer returns no token when the line is empty and exactly one token,
    the empty string, otherwise; both passes of the loader skip such a line
    before tokenizing it: the line counter advances, nothing is reported and
    neither the declared course numbers nor the table change. *)
Theorem blank_line_skipped (line : string) :
  allSpace line = true →
  splitByComma line = (if decide (line = "") then [] else [""]) ∧
  (∀ st, pass1Body st line = skipLine st) ∧
  (∀ acn st, pass2Body acn st line = skipLine st).
Proof.
  intros Hsp. split; [by apply splitByComma_allSpace|].
  apply trim_empty_iff in Hsp.
  split; intros; [unfold pass1Body|unfold pass2Body]; by rewrite decide_True.
Qed.

Lemma blank_line_skipped_witness :
  allSpace " 	 " = true ∧
  splitByComma " 	 " = [""] ∧
  (∀ st, pass1Body st " 	 " = skipLine st) ∧
  (∀ acn st, pass2Body acn st " 	 " = skipLine st).
Proof. split; [reflexivity|]. apply (blank_line_skipped " 	 "). reflexivity. Defined.

(** C8 as stated fails: a line of two spaces is white space only, and the
    tokenizer returns one token for it, not the empty sequence. *)
Lemma blank_line_tokens_counterexample :
  allSpace "  " = true ∧ splitByComma "  " = [""] ∧ splitByComma "  " ≠ [].
Proof. by vm_compute. Qed.

(** ** The loader *)

Example scenario_load :
  loadCoursesFromFile scenarioFS "courses.csv" =
  ({[ "CS101" := {| courseNumber := "CS101"; title := "Intro to CS";
                    prerequisites := [] |};
      "CS201" := {| courseNumber := "CS201"; title := "Data Structures";
                    prerequisites := ["CS101"] |} ]},
   [ErrDuplicate "CS101" 4%Z; ErrInvalidPrereq 3%Z "CS999" "CS300"]).
Proof. by vm_compute. Qed.

Example scenario_declared :
  declaredCourseNumbers scenarioFS "courses.csv" = {[ "CS101"; "CS201"; "CS300" ]}.
Proof. by vm_compute. Qed.

(** C9. In every table [loadCoursesFromFile] returns, each record is stored
    under its own [courseNumber]; that key and the title are non-empty, and
    the key is trimmed and in upper case: [trim] and the upper-casing loop
    leave it unchanged, it has no white space at either end and no
    lower-case letter. *)
Theorem loaded_key_invariant fs fileName (k : string) (c : Course) :
  (loadCoursesFromFile fs fileName).1 !! k = Some c →
  courseNumber c = k ∧ k ≠ "" ∧ title c ≠ "" ∧
  trim k = k ∧ upcase k = k ∧ normalizedString k.
Proof.
  intros (content & line & _ & _ & Hc & <-)%loadCoursesFromFile_lookup.
  apply builtCourse_wf in Hc as (? & ? & Hn & _).
  split_and!; try done; rewrite <-Hn.
  - apply trim_normalize.
  - apply upcase_normalize.
  - apply normalizeCourseNumber_normalized.
Qed.

Lemma loaded_key_invariant_witness :
  let c := {| courseNumber := "CS201"; title := "Data Structures";
              prerequisites := ["CS101"] |} in
  (loadCoursesFromFile scenarioFS "courses.csv").1 !! "CS201" = Some c ∧
  (courseNumber c = "CS201" ∧ "CS201" ≠ "" ∧ title c ≠ "" ∧
   trim "CS201" = "CS201" ∧ upcase "CS201" = "CS201" ∧
   normalizedString "CS201").
Proof.
  intros c. assert ((loadCoursesFromFile scenarioFS "courses.csv").1 !! "CS201" = Some c)
    as H by (by vm_compute).
  split; [exact H|]. exact (loaded_key_invariant scenarioFS "courses.csv" "CS201" c H).
Defined.

(** C10. In every table [loadCoursesFromFile] returns, every course number
    stored in a record's [prerequisites] is non-empty, trimmed and in upper
    case (a fixed point of [trim] and of the upper-casing loop, without
    white space at either end or lower-case letters), and is one of the
    course numbers pass 1 declared. *)
Theorem loaded_prerequisites_declared fs fileName (k : string) (c : Course) (p : string) :
  (loadCoursesFromFile fs fileName).1 !! k = Some c →
  p ∈ prerequisites c →
  p ≠ "" ∧ trim p = p ∧ upcase p = p ∧ normalizedString p ∧
  p ∈ declaredCourseNumbers fs fileName.
Proof.
  intros (content & line & _ & _ & Hc & <-)%loadCoursesFromFile_lookup Hp.
  apply builtCourse_wf in Hc as (_ & _ & _ & Hall).
  rewrite Forall_forall in Hall. destruct (Hall p Hp) as (? & Hn & ?).
  split_and!; try done; rewrite <-Hn.
  - apply trim_normalize.
  - apply upcase_normalize.
  - apply normalizeCourseNumber_normalized.
Qed.

Lemma loaded_prerequisites_declared_witness :
  let c := {| courseNumber := "CS201"; title := "Data Structures";
              prerequisites := ["CS101"] |} in
  (loadCoursesFromFile scenarioFS "courses.csv").1 !! "CS201" = Some c ∧
  "CS101" ∈ prerequisites c ∧
  ("CS101" ≠ "" ∧ trim "CS101" = "CS101" ∧ upcase "CS101" = "CS101" ∧
   normalizedString "CS101" ∧
   "CS101" ∈ declaredCourseNumbers scenarioFS "courses.csv").
Proof.
  intros c. assert ((loadCoursesFromFile scenarioFS "courses.csv").1 !! "CS201" = Some c)
    as H by (by vm_compute).
  assert ("CS101" ∈ prerequisites c) as Hp by (by left).
  split; [exact H|split; [exact Hp|]].
  exact (loaded_prerequisites_declared scenarioFS "courses.csv" "CS201" c "CS101" H Hp).
Defined.

(** C2 as stated fails: the first line below has a well-formed course number
    and title and a prerequisite that no line declares, and the table holds
    a record under its course number, the one of the second line. *)
Lemma undeclared_prerequisite_counterexample :
  let line := "CS101, A, CS999" in
  let table := (loadCoursesFromFile shadowedFS "courses.csv").1 in
  fileLines shadowedFile = [line; "cs101, B"] ∧
  splitByComma line = ["CS101"; "A"; "CS999"] ∧
  normalizeCourseNumber "CS101" = "CS101" ∧
  "CS999" ∈ collectPrereqs ["CS999"] ∧
  ("CS999" ∉ declaredCourseNumbers shadowedFS "courses.csv") ∧
  table !! "CS101" =
    Some {| courseNumber := "CS101"; title := "B"; prerequisites := [] |} ∧
  table !! "CS101" ≠ None.
Proof.
  intros line table.
  split_and!; [by vm_compute|by vm_compute|by vm_compute|decide_by_compute
              |decide_by_compute|by vm_compute|by vm_compute].
Qed.

(** C2, as the code has it. A line of the input whose own course number and
    title are well-formed, and whose prerequisite list contains a course
    number pass 1 did not declare, adds no record to the table: pass 2
    reports an invalid prerequisite and leaves the table as it was, and the
    record of that line is not in the table [loadCoursesFromFile] returns.
    The table has a record under the course number of the line only when
    another line that declares the same number passes every test of pass 2,
    and the record is then the one built from that line. When no other line
    declares the course number, the table has no record under it. *)
Theorem undeclared_prerequisite_rejects_course
    fs fileName content (line token0 token1 : string) (prereqTokens : list string)
    (p : string) :
  fs fileName = Some content →
  line ∈ fileLines content →
  trim line ≠ "" →
  splitByComma line = token0 :: token1 :: prereqTokens →
  normalizeCourseNumber token0 ≠ "" →
  trim token1 ≠ "" →
  p ∈ collectPrereqs prereqTokens →
  p ∉ declaredCourseNumbers fs fileName →
  let acn := declaredCourseNumbers fs fileName in
  let table := (loadCoursesFromFile fs fileName).1 in
  (∃ prereq, prereq ∈ collectPrereqs prereqTokens ∧ (prereq ∉ acn) ∧
     (∀ st, pass2Body acn st line =
            skipWith st (λ n, ErrInvalidPrereq n prereq (normalizeCourseNumber token0)))) ∧
  (∀ k c, table !! k = Some c →
     c ≠ {| courseNumber := normalizeCourseNumber token0; title := trim token1;
            prerequisites := collectPrereqs prereqTokens |}) ∧
  (∀ c, table !! normalizeCourseNumber token0 = Some c →
     ∃ line', line' ∈ fileLines content ∧ line' ≠ line ∧
              declaredBy line' = Some (normalizeCourseNumber token0) ∧
              builtCourse acn line' = Some c) ∧
  ((∀ line', line' ∈ fileLines content →
      declaredBy line' = Some (normalizeCourseNumber token0) → line' = line) →
   table !! normalizeCourseNumber token0 = None).
Proof.
  intros Hfs Hline Hblank Htokens Hnum Httl Hp Hundecl acn table.
  destruct (invalidPrereq acn prereqTokens) as [prereq|] eqn:Hinv;
    [|exfalso; apply Hundecl; by eapply invalidPrereq_None].
  assert (builtCourse acn line = None) as Hbuilt.
  { unfold builtCourse. rewrite decide_False, Htokens by done. simpl.
    rewrite decide_False by tauto. by rewrite Hinv. }
  assert (∀ c, table !! normalizeCourseNumber token0 = Some c →
     ∃ line', line' ∈ fileLines content ∧ line' ≠ line ∧
              declaredBy line' = Some (normalizeCourseNumber token0) ∧
              builtCourse acn line' = Some c) as Hother.
  { intros c Hc.
    apply loadCoursesFromFile_lookup in Hc as (content' & line' & ? & ? & Hc & Hk).
    simplify_eq. exists line'.
    split_and!; [done| |rewrite <- Hk; by eapply builtCourse_declaredBy|done].
    intros ->. fold acn in Hc. congruence. }
  split_and!.
  - exists prereq. destruct (invalidPrereq_collect _ _ _ Hinv) as [??].
    split_and!; [done..|]. intros st. unfold pass2Body.
    rewrite decide_False, Htokens by done. simpl.
    rewrite decide_False by tauto. by rewrite Hinv.
  - intros k c (? & line' & _ & _ & Hc & _)%loadCoursesFromFile_lookup ->.
    apply builtCourse_wf in Hc as (_ & _ & _ & Hall).
    rewrite Forall_forall in Hall. by destruct (Hall p Hp) as (_ & _ & ?).
  - exact Hother.
  - intros Huniq. destruct (table !! _) as [c|] eqn:Hc; [|done].
    destruct (Hother c eq_refl) as (line' & Hin & Hne & Hdecl & _).
    by apply Huniq in Hdecl.
Qed.

Lemma undeclared_prerequisite_rejects_course_witness :
  let line := "CS101, A, CS999" in
  let acn := declaredCourseNumbers shadowedFS "courses.csv" in
  let table := (loadCoursesFromFile shadowedFS "courses.csv").1 in
  (shadowedFS "courses.csv" = Some shadowedFile ∧
   line ∈ fileLines shadowedFile ∧
   trim line ≠ "" ∧
   splitByComma line = ["CS101"; "A"; "CS999"] ∧
   normalizeCourseNumber "CS101" ≠ "" ∧
   trim "A" ≠ "" ∧
   "CS999" ∈ collectPrereqs ["CS999"] ∧
   "CS999" ∉ acn) ∧
  (∃ prereq, prereq ∈ collectPrereqs ["CS999"] ∧ (prereq ∉ acn) ∧
     (∀ st, pass2Body acn st line =
            skipWith st (λ n, ErrInvalidPrereq n prereq (normalizeCourseNumber "CS101")))) ∧
  (∀ k c, table !! k = Some c →
     c ≠ {| courseNumber := normalizeCourseNumber "CS101"; title := trim "A";
            prerequisites := collectPrereqs ["CS999"] |}) ∧
  (∀ c, table !! normalizeCourseNumber "CS101" = Some c →
     ∃ line', line' ∈ fileLines shadowedFile ∧ line' ≠ line ∧
              declaredBy line' = Some (normalizeCourseNumber "CS101") ∧
              builtCourse acn line' = Some c) ∧
  ((∀ line', line' ∈ fileLines shadowedFile →
      declaredBy line' = Some (normalizeCourseNumber "CS101") → line' = line) →
   table !! normalizeCourseNumber "CS101" = None).
Proof.
  intros line acn table.
  assert (line ∈ fileLines shadowedFile) as Hline
    by decide_by_compute.
  assert ("CS999" ∈ collectPrereqs ["CS999"]) as Hp
    by decide_by_compute.
  assert ("CS999" ∉ acn) as Hundecl
    by decide_by_compute.
  split.
  - split_and!; [reflexivity|exact Hline|by vm_compute|reflexivity
                 |by vm_compute|by vm_compute|exact Hp|exact Hundecl].
  - exact (undeclared_prerequisite_rejects_course shadowedFS "courses.csv"
             shadowedFile line "CS101" "A" ["CS999"] "CS999"
             eq_refl Hline ltac:(by vm_compute) eq_refl ltac:(by vm_compute)
             ltac:(by vm_compute) Hp Hundecl).
Defined.

(** In the scenario of the specification no other line declares [CS300]:
    the line is reported and the table has no record under [CS300]. *)
Example scenario_rejected :
  pass2Body (declaredCourseNumbers scenarioFS "courses.csv") (MkScan ∅ 2%Z [])
    "CS300, Algorithms, CS201,CS999" =
    MkScan ∅ 3%Z [ErrInvalidPrereq 3%Z "CS999" "CS300"] ∧
  (loadCoursesFromFile scenarioFS "courses.csv").1 !! "CS300" = None.
Proof. by vm_compute. Qed.

(** C3 as stated fails: the two lines below declare the same course number
    and are otherwise valid, and the table holds a record under that number,
    the one of the first line. *)
Lemma duplicate_key_counterexample :
  fileLines duplicateFile = ["CS101, Intro to CS,"; "cs101, Duplicate Intro,"] ∧
  declaredBy "CS101, Intro to CS," = Some "CS101" ∧
  declaredBy "cs101, Duplicate Intro," = Some "CS101" ∧
  (loadCoursesFromFile duplicateFS "courses.csv").1 !! "CS101" =
    Some {| courseNumber := "CS101"; title := "Intro to CS"; prerequisites := [] |} ∧
  (loadCoursesFromFile duplicateFS "courses.csv").1 !! "CS101" ≠ None.
Proof. by vm_compute. Qed.

(** C3, as the code has it. For every input in which a course number is
    declared on two or more otherwise-valid lines, the table
    [loadCoursesFromFile] returns holds one record under that number, the
    record of the first line that declares it, when that line passes the
    prerequisite check of pass 2: whatever lines follow, they do not
    overwrite it. *)
Theorem first_declaration_wins fs fileName content
    (pre : list string) (line : string) (post : list string) (c : Course) :
  fs fileName = Some content →
  fileLines content = pre ++ line :: post →
  (∀ line', line' ∈ pre → declaredBy line' ≠ Some (courseNumber c)) →
  builtCourse (declaredCourseNumbers fs fileName) line = Some c →
  (loadCoursesFromFile fs fileName).1 !! courseNumber c = Some c.
Proof.
  intros Hfs Hlines Hfirst Hc.
  apply (loadCoursesFromFile_first_built _ _ _ _ _ _ _ Hfs Hlines Hc).
  intros line' c' Hin Hc' Hnum. apply (Hfirst line' Hin).
  rewrite <-Hnum. by eapply builtCourse_declaredBy.
Qed.

Lemma first_declaration_wins_witness :
  let line := "CS101, Intro to CS," in
  let c := {| courseNumber := "CS101"; title := "Intro to CS"; prerequisites := [] |} in
  (duplicateFS "courses.csv" = Some duplicateFile ∧
   fileLines duplicateFile = [] ++ line :: ["cs101, Duplicate Intro,"] ∧
   (∀ line', line' ∈ [] → declaredBy line' ≠ Some (courseNumber c)) ∧
   builtCourse (declaredCourseNumbers duplicateFS "courses.csv") line = Some c) ∧
  (loadCoursesFromFile duplicateFS "courses.csv").1 !! courseNumber c = Some c.
Proof.
  intros line c.
  assert (∀ line', line' ∈ [] → declaredBy line' ≠ Some (courseNumber c)) as Hfirst
    by (by intros line' ?%elem_of_nil).
  assert (builtCourse (declaredCourseNumbers duplicateFS "courses.csv") line = Some c)
    as Hc by (by vm_compute).
  split; [split_and!; [reflexivity|reflexivity|exact Hfirst|exact Hc]|].
  exact (first_declaration_wins duplicateFS "courses.csv" duplicateFile
           [] line ["cs101, Duplicate Intro,"] c eq_refl eq_refl Hfirst Hc).
Defined.

(** C1 fails on this input. Pass 1 declares [CS200] and [CS300]; pass 2
    accepts [CS200], whose prerequisite [CS300] is declared, and rejects
    [CS300], whose prerequisite [CS999] is not. The table returned holds
    [CS200] with a prerequisite that is not a key of the table, and
    [printCourseInfo] takes the branch its comment says should not happen. *)
Lemma prerequisite_missing_from_table :
  let table := (loadCoursesFromFile cascadeFS "courses.csv").1 in
  table !! "CS200" =
    Some {| courseNumber := "CS200"; title := "Data Structures";
            prerequisites := ["CS300"] |} ∧
  "CS300" ∈ declaredCourseNumbers cascadeFS "courses.csv" ∧
  table !! "CS300" = None ∧
  printCourseInfo table "CS200" =
    [OutCourse "CS200" "Data Structures"; OutPrereqHeader; OutPrereqMissing "CS300"].
Proof.
  split_and!; by vm_compute.
Qed.

(** ** The queries *)

(** A sorted sequence of the keys is the result of [sortCourseNums],
    whichever algorithm produced it. *)
Lemma sorted_keys_unique (courseNums sorted : list string) :
  sorted ≡ₚ courseNums → Sorted String.le sorted → sorted = sortCourseNums courseNums.
Proof.
  intros Hperm Hsorted. apply (Sorted_unique String.le); [done| |].
  - apply (Sorted_merge_sort _).
  - unfold sortCourseNums. by rewrite merge_sort_Permutation.
Qed.

Lemma courseRows_mapM (coursesTable : CourseTable) (nums : list string) out :
  keyedByNumber coursesTable →
  mapM (printCourseRow coursesTable) nums = Some out →
  courseRows out = (λ num, (num, from_option title "" (coursesTable !! num))) <$> nums.
Proof.
  intros Hkeyed Hout%mapM_Some.
  induction Hout as [|num line nums out Hline _ IH]; [done|].
  unfold printCourseRow in Hline.
  destruct (coursesTable !! num) as [c|] eqn:Hc; simplify_eq/=.
  pose proof (Hkeyed _ _ Hc) as Hnum. simpl in Hnum.
  by rewrite IH, Hc, Hnum.
Qed.

(** Every table [loadCoursesFromFile] returns stores its records under
    their own course number. *)
Lemma loadCoursesFromFile_keyed fs fileName :
  keyedByNumber (loadCoursesFromFile fs fileName).1.
Proof.
  intros k c (? & ? & _ & _ & _ & ?)%loadCoursesFromFile_lookup. done.
Qed.

(** C5. For every table whose records are stored under their own course
    number, as in every table [loadCoursesFromFile] returns,
    [printCourseListSorted] writes one [<number>, <title>] row per record,
    and the numbers of the rows are in non-decreasing order of [String.le],
    the comparison of strings character by character, by character code. *)
Theorem printCourseListSorted_sorted (coursesTable : CourseTable) :
  keyedByNumber coursesTable →
  ∃ out,
    printCourseListSorted coursesTable = Some out ∧
    length (courseRows out) = size coursesTable ∧
    Sorted String.le (courseRows out).*1 ∧
    (∀ num ttl, (num, ttl) ∈ courseRows out ↔
                ∃ c, coursesTable !! num = Some c ∧ title c = ttl).
Proof.
  intros Hkeyed. unfold printCourseListSorted. case_decide as Hempty.
  - subst. exists [OutNoData]. simpl. split_and!; [done|done|constructor|].
    intros num ttl. split; [by intros ?%elem_of_nil|].
    intros (c & Hc & _). by rewrite lookup_empty in Hc.
  - set (nums := sortCourseNums (map_to_list coursesTable).*1).
    assert (nums ≡ₚ (map_to_list coursesTable).*1) as Hperm
      by apply merge_sort_Permutation.
    assert (∀ num, num ∈ nums ↔ is_Some (coursesTable !! num)) as Hnums.
    { intros num. rewrite Hperm, list_elem_of_fmap. split.
      - intros ([k c] & -> & Hin). apply elem_of_map_to_list in Hin. by exists c.
      - intros [c Hc]. exists (num, c). by rewrite elem_of_map_to_list. }
    destruct (mapM (printCourseRow coursesTable) nums) as [out|] eqn:Hout.
    2:{ apply mapM_None, Exists_exists in Hout as (num & Hin & Hnone).
        apply Hnums in Hin as [c Hc]. unfold printCourseRow in Hnone.
        by rewrite Hc in Hnone. }
    exists out. split; [done|]. rewrite (courseRows_mapM _ _ _ Hkeyed Hout).
    split_and!.
    + by rewrite length_fmap, Hperm, length_fmap, length_map_to_list.
    + rewrite <-list_fmap_compose. change (Sorted String.le (id <$> nums)).
      rewrite list_fmap_id. apply (Sorted_merge_sort _).
    + intros num ttl. rewrite list_elem_of_fmap. split.
      * intros (num' & [= -> ->] & [c Hc]%Hnums). exists c. by rewrite Hc.
      * intros (c & Hc & <-). exists num. rewrite Hc. split; [done|].
        apply Hnums. by exists c.
Qed.

Lemma printCourseListSorted_sorted_witness :
  let table := (loadCoursesFromFile scenarioFS "courses.csv").1 in
  keyedByNumber table ∧
  ∃ out,
    printCourseListSorted table = Some out ∧
    length (courseRows out) = size table ∧
    Sorted String.le (courseRows out).*1 ∧
    (∀ num ttl, (num, ttl) ∈ courseRows out ↔
                ∃ c, table !! num = Some c ∧ title c = ttl).
Proof.
  intros table.
  assert (keyedByNumber table) as Hkeyed
    by decide_by_compute.
  split; [exact Hkeyed|]. exact (printCourseListSorted_sorted table Hkeyed).
Defined.

Example scenario_listing :
  printCourseListSorted (loadCoursesFromFile scenarioFS "courses.csv").1 =
  Some [OutCourse "CS101" "Intro to CS"; OutCourse "CS201" "Data Structures"].
Proof. by vm_compute. Qed.




Example scenario_lookup :
  printCourseInfo (loadCoursesFromFile scenarioFS "courses.csv").1 "cs201" =
  [OutCourse "CS201" "Data Structures"; OutPrereqHeader; OutPrereq "CS101" "Intro to CS"].
Proof. by vm_compute. Qed.

Example scenario_lookup_absent :
  printCourseInfo (loadCoursesFromFile scenarioFS "courses.csv").1 " cs300" =
  [OutNotFound "CS300"].
Proof. by vm_compute. Qed.

(** * Further properties of the program *)

(** ** [trim] and [normalizeCourseNumber] *)

Lemma app_String c s t : String c s +:+ t = String c (s +:+ t).
Proof. done. Qed.

Lemma app_empty_r s : s +:+ "" = s.
Proof. induction s as [|c s IH]; [done|]. by rewrite app_String, IH. Qed.

Lemma app_assoc_string s t u : (s +:+ t) +:+ u = s +:+ t +:+ u.
Proof. induction s as [|c s IH]; [done|]. by rewrite !app_String, IH. Qed.

Lemma allSpace_app s t : allSpace (s +:+ t) = allSpace s && allSpace t.
Proof.
  induction s as [|c s IH]; [done|]. rewrite app_String. simpl.
  by rewrite IH, andb_assoc.
Qed.

Lemma dropSpaceFront_split s :
  ∃ front, s = front +:+ dropSpaceFront s ∧ allSpace front = true.
Proof.
  induction s as [|c s (front & Hs & Hfront)]; [by exists ""|]. simpl.
  destruct (isspace c) eqn:Hc; [|by exists ""].
  exists (String c front). rewrite app_String, <-Hs. simpl. by rewrite Hc.
Qed.

Lemma dropSpaceBack_split s :
  ∃ rear, s = dropSpaceBack s +:+ rear ∧ allSpace rear = true.
Proof.
  induction s as [|c s (rear & Hs & Hrear)]; [by exists ""|]. simpl.
  destruct (dropSpaceBack s) as [|a r] eqn:Hr.
  - destruct (isspace c) eqn:Hc.
    + exists (String c rear). split; [by rewrite Hs|]. simpl. by rewrite Hc.
    + exists rear. by rewrite app_String, <-Hs.
  - exists rear. by rewrite app_String, <-Hs.
Qed.

(** X1. [trim] removes white space and nothing else: every string is its
    trimmed part between a prefix and a suffix of white space, and the
    trimmed part neither starts nor ends with white space. *)
Theorem trim_decompose (s : string) :
  ∃ front rear,
    s = front +:+ trim s +:+ rear ∧
    allSpace front = true ∧ allSpace rear = true ∧
    (∀ c, String.get 0 (trim s) = Some c → isspace c = false) ∧
    (∀ c, back (trim s) = Some c → isspace c = false).
Proof.
  destruct (dropSpaceFront_split s) as (front & Hs & Hfront).
  destruct (dropSpaceBack_split (dropSpaceFront s)) as (rear & Ht & Hrear).
  exists front, rear. rewrite trim_eq, <-Ht. split_and!; [done..| |].
  - intros c. rewrite <-trim_eq, <-dropSpaceFront_trim.
    destruct (dropSpaceFront_head (trim s)) as [->|(a & t & -> & Ha)]; [done|].
    by intros [= <-].
  - apply back_dropSpaceBack.
Qed.

Lemma dropSpaceFront_app_allSpace front s :
  allSpace front = true → dropSpaceFront (front +:+ s) = dropSpaceFront s.
Proof.
  induction front as [|c front IH]; [done|]. simpl.
  intros [Hc ?]%andb_true_iff. rewrite Hc. auto.
Qed.

Lemma dropSpaceBack_allSpace s : allSpace s = true → dropSpaceBack s = "".
Proof.
  induction s as [|c s IH]; [done|]. simpl.
  intros [Hc Hs]%andb_true_iff. by rewrite IH, Hc.
Qed.

Lemma dropSpaceBack_app_allSpace s rear :
  allSpace rear = true → dropSpaceBack (s +:+ rear) = dropSpaceBack s.
Proof.
  intros Hrear. induction s as [|c s IH].
  - by apply dropSpaceBack_allSpace.
  - rewrite app_String. simpl. by rewrite IH.
Qed.

Lemma dropSpaceFront_app_nonSpace s rear :
  allSpace s = false → dropSpaceFront (s +:+ rear) = dropSpaceFront s +:+ rear.
Proof.
  induction s as [|c s IH]; [done|]. simpl.
  destruct (isspace c); [apply IH|done].
Qed.

Lemma trim_pad front s rear :
  allSpace front = true → allSpace rear = true →
  trim (front +:+ s +:+ rear) = trim s.
Proof.
  intros Hfront Hrear. rewrite !trim_eq, dropSpaceFront_app_allSpace by done.
  destruct (allSpace s) eqn:Hs.
  - rewrite !dropSpaceFront_allSpace; [done|done|].
    by rewrite allSpace_app, Hs, Hrear.
  - by rewrite dropSpaceFront_app_nonSpace, dropSpaceBack_app_allSpace.
Qed.

(** X2. [normalizeCourseNumber] does not see surrounding white space or
    letter case: padding with white space, and replacing a string by one
    with the same upper-case form, leave the result unchanged; the result is
    a fixed point, of the length of the trimmed input. *)
Theorem normalizeCourseNumber_insensitive (s : string) :
  (∀ front rear, allSpace front = true → allSpace rear = true →
     normalizeCourseNumber (front +:+ s +:+ rear) = normalizeCourseNumber s) ∧
  (∀ s', upcase s' = upcase s → normalizeCourseNumber s' = normalizeCourseNumber s) ∧
  normalizeCourseNumber (normalizeCourseNumber s) = normalizeCourseNumber s ∧
  String.length (normalizeCourseNumber s) = String.length (trim s).
Proof.
  split_and!.
  - intros front rear ??. unfold normalizeCourseNumber. by rewrite trim_pad.
  - intros s' Hup. unfold normalizeCourseNumber. by rewrite <-!trim_upcase, Hup.
  - apply normalize_idemp.
  - unfold normalizeCourseNumber. generalize (trim s).
    intros t. induction t as [|c t IH]; [done|]. simpl. by rewrite IH.
Qed.

(** ** The [getline] loops and the tokenizer *)

Lemma countChar_app d s t : countChar d (s +:+ t) = countChar d s + countChar d t.
Proof.
  induction s as [|c s IH]; [done|]. rewrite app_String, !countChar_String, IH. lia.
Qed.

Lemma countChar_trim d s : countChar d s = 0 → countChar d (trim s) = 0.
Proof.
  destruct (dropSpaceFront_split s) as (front & Hs & _).
  destruct (dropSpaceBack_split (dropSpaceFront s)) as (rear & Ht & _).
  rewrite trim_eq. intros H. rewrite Hs, Ht, !countChar_app in H. lia.
Qed.

Lemma getlines_nonempty delim c s : getlines delim (String c s) ≠ [].
Proof. rewrite getlines_String. by repeat case_match. Qed.

(** The stream [String c s] ends with the delimiter exactly when [s] is
    empty and [c] is the delimiter, or [s] ends with it. *)
Lemma ends_String (delim c : ascii) (s : string) :
  String c s = "" ∨ back (String c s) = Some delim ↔
  (s = "" ∧ c = delim) ∨ (s ≠ "" ∧ back s = Some delim).
Proof.
  rewrite back_String. destruct s as [|a s].
  - split; [intros [?|[= ->]]; [done|by left]|intros [[_ ->]|[? _]]; [by right|done]].
  - split; [intros [?|?]; [done|by right]|intros [[? _]|[_ ?]]; [done|by right]].
Qed.

(** The stream rebuilt from the strings extracted, and the delimiter in
    none of them. *)
Lemma getlines_rebuild (delim : ascii) (s : string) :
  delimited delim (getlines delim s) =
    (if decide (s = "" ∨ back s = Some delim) then s else s +:+ String delim "") ∧
  Forall (λ token, countChar delim token = 0) (getlines delim s).
Proof.
  induction s as [|c s [IHjoin IHcount]]; [by split|].
  pose proof (ends_String delim c s) as Hends.
  rewrite getlines_String. destruct (decide (c = delim)) as [->|Hc].
  - split; [|by constructor].
    change (delimited delim ("" :: getlines delim s))
      with (String delim (delimited delim (getlines delim s))).
    rewrite IHjoin. destruct (decide (s = "" ∨ back s = Some delim)) as [He|He].
    + rewrite decide_True; [done|]. apply Hends.
      destruct s as [|a s]; [by left|right]. by destruct He.
    + rewrite decide_False; [done|]. rewrite Hends.
      intros [[-> _]|[_ ?]]; apply He; [by left|by right].
  - destruct (getlines delim s) as [|t ts] eqn:Hg.
    + destruct s as [|a s]; [|by apply getlines_nonempty in Hg].
      split; [|constructor; [|done]].
      * rewrite decide_False; [done|]. rewrite Hends. by intros [[_ ?]|[? _]].
      * rewrite countChar_String. by rewrite decide_False.
    + split.
      * change (delimited delim (String c t :: ts))
          with (String c (delimited delim (t :: ts))).
        rewrite IHjoin. destruct s as [|a s]; [done|].
        destruct (decide (String a s = "" ∨ back (String a s) = Some delim)) as [He|He].
        -- rewrite decide_True; [done|]. apply Hends. right. by destruct He.
        -- rewrite decide_False; [done|]. rewrite Hends.
           intros [[? _]|[_ ?]]; [done|]. apply He. by right.
      * apply Forall_cons in IHcount as [Ht Hts]. constructor; [|done].
        rewrite countChar_String, decide_False by done. done.
Qed.

(** X3. The [getline] loop loses nothing: the extracted strings, each
    followed by the delimiter, make up the stream again, with a delimiter
    added at the end when the stream did not end with one; no extracted
    string contains the delimiter. *)
Theorem getlines_delimited (delim : ascii) (s : string) :
  delimited delim (getlines delim s) =
    (if decide (s = "" ∨ back s = Some delim) then s else s +:+ String delim "") ∧
  Forall (λ token, countChar delim token = 0) (getlines delim s).
Proof.
  destruct (getlines_rebuild delim s) as [Hjoin Hcount].
  split; [exact Hjoin|]. apply Forall_forall. intros token Hin.
  rewrite Forall_forall in Hcount. by apply Hcount.
Qed.

Lemma splitByComma_Forall line :
  Forall (λ token, trim token = token ∧ countChar "," token = 0) (splitByComma line).
Proof.
  assert (Forall (λ token, trim token = token ∧ countChar "," token = 0)
            (trim <$> getlines "," line)) as Htokens.
  { apply Forall_fmap. eapply Forall_impl; [apply getlines_rebuild|].
    intros token Hcount. simpl. split; [apply trim_idemp|by apply countChar_trim]. }
  unfold splitByComma. case_decide; [|done].
  apply Forall_app. split; [done|by repeat constructor].
Qed.

Lemma splitByComma_length line :
  length (splitByComma line) =
  if decide (line = "") then 0 else S (countChar "," line).
Proof.
  unfold splitByComma. destruct (getlines_length "," line) as [Hend Hmid].
  case_decide as Hback.
  - rewrite length_app, length_fmap, Hend by done. simpl.
    rewrite decide_False by (by intros ->). lia.
  - rewrite length_fmap. case_decide as Hline; [by subst|]. by apply Hmid.
Qed.

(** X4. A non-empty line with [n] commas gives [n + 1] tokens, and the empty
    line none; every token is trimmed and contains no comma. *)
Theorem splitByComma_tokens (line : string) :
  length (splitByComma line) =
    (if decide (line = "") then 0 else S (countChar "," line)) ∧
  Forall (λ token, trim token = token ∧ countChar "," token = 0) (splitByComma line).
Proof.
  split; [apply splitByComma_length|apply splitByComma_Forall].
Qed.

(** [trim] gives its argument without the white space at its two ends. *)
Lemma trim_trimmedOf s : trimmedOf s (trim s).
Proof.
  destruct (dropSpaceFront_split s) as (front & Hs & Hfront).
  destruct (dropSpaceBack_split (dropSpaceFront s)) as (rear & Ht & Hrear).
  exists front, rear. rewrite trim_eq, <-Ht. split_and!; [done..| |].
  - intros c. rewrite <-trim_eq, <-dropSpaceFront_trim.
    destruct (dropSpaceFront_head (trim s)) as [->|(a & t & -> & Ha)]; [done|].
    by intros [= <-].
  - apply back_dropSpaceBack.
Qed.

Lemma Forall2_trimmedOf pieces : Forall2 trimmedOf pieces (trim <$> pieces).
Proof.
  induction pieces as [|piece pieces IH]; constructor; [apply trim_trimmedOf|done].
Qed.

(** C7. A line that ends with the delimiter is a sequence of pieces without
    comma, each followed by a comma. For every such line [splitByComma]
    returns the fields produced by splitting, that is one field for each
    piece, the piece without the white space at its ends, and after them one
    more field, which is empty; the line then has one token more than it
    has commas. *)
Theorem splitByComma_trailing_comma (pre : string) :
  let line := pre +:+ "," in
  ∃ pieces fields,
    delimited "," pieces = line ∧
    Forall (λ piece, countChar "," piece = 0) pieces ∧
    Forall2 trimmedOf pieces fields ∧
    splitByComma line = fields ++ [""] ∧
    last (splitByComma line) = Some "" ∧
    length (splitByComma line) = S (countChar "," line).
Proof.
  intros line. assert (back line = Some ","%char) as Hback by apply back_append_char.
  destruct (getlines_rebuild "," line) as [Hjoin Hfree].
  rewrite decide_True in Hjoin by (by right).
  assert (splitByComma line = (trim <$> getlines "," line) ++ [""]) as Htokens.
  { unfold splitByComma. by rewrite decide_True. }
  exists (getlines "," line), (trim <$> getlines "," line).
  split_and!; [done|done|apply Forall2_trimmedOf|done| |].
  - rewrite Htokens. apply last_snoc.
  - rewrite Htokens, length_app, length_fmap. simpl.
    rewrite (proj1 (getlines_length _ _) Hback). lia.
Qed.

(** The pieces and the fields of a line with a trailing comma. *)
Example trailing_comma_fields_ex :
  delimited "," ["CS101"; " Intro to CS"] = "CS101, Intro to CS," ∧
  splitByComma "CS101, Intro to CS," = ["CS101"; "Intro to CS"] ++ [""].
Proof. by vm_compute. Qed.

Lemma cerr_app_ne {A} (st : Scan A) (e : Z → ErrLine) (v : A) :
  nextWith st v ≠ skipWith st e.
Proof.
  intros H. apply (f_equal cerr), (f_equal length) in H. simpl in H.
  rewrite length_app in H. simpl in H. lia.
Qed.

Lemma skipWith_inj {A} (st : Scan A) (e1 e2 : Z → ErrLine) :
  skipWith st e1 = skipWith st e2 →
  e1 (increment (lineNumber st)) = e2 (increment (lineNumber st)).
Proof.
  intros H. apply (f_equal cerr) in H. simpl in H.
  by apply app_inv_head in H as [= ?].
Qed.

(** X5. A line that is not blank is reported as badly formatted, by either
    pass, exactly when it contains no comma. *)
Theorem bad_format_iff_no_comma (line : string) :
  trim line ≠ "" →
  (∀ st, pass1Body st line = skipWith st ErrBadFormat ↔ countChar "," line = 0) ∧
  (∀ acn st, pass2Body acn st line = skipWith st ErrBadFormat ↔ countChar "," line = 0).
Proof.
  intros Hblank.
  assert (line ≠ "") as Hline by (by intros ->).
  pose proof (splitByComma_length line) as Hlen. rewrite decide_False in Hlen by done.
  split; [intros st; unfold pass1Body|intros acn st; unfold pass2Body];
    rewrite decide_False by done;
    destruct (splitByComma line) as [|token0 [|token1 tokens]]; simpl in Hlen;
    try (split; [intros _; lia|done]).
  - split; [|lia]. repeat case_decide; intros Heq; exfalso.
    + by apply skipWith_inj in Heq.
    + by apply skipWith_inj in Heq.
    + by apply cerr_app_ne in Heq.
  - split; [|lia]. repeat case_match; intros Heq; exfalso.
    + by apply skipWith_inj in Heq.
    + by apply skipWith_inj in Heq.
    + by apply cerr_app_ne in Heq.
Qed.

Lemma bad_format_iff_no_comma_witness :
  trim "CS101 Intro to CS" ≠ "" ∧
  (∀ st, pass1Body st "CS101 Intro to CS" = skipWith st ErrBadFormat ↔
         countChar "," "CS101 Intro to CS" = 0) ∧
  (∀ acn st, pass2Body acn st "CS101 Intro to CS" = skipWith st ErrBadFormat ↔
             countChar "," "CS101 Intro to CS" = 0).
Proof.
  assert (trim "CS101 Intro to CS" ≠ "") as H by (by vm_compute).
  split; [exact H|]. exact (bad_format_iff_no_comma "CS101 Intro to CS" H).
Defined.


(** ** The diagnostics of a load *)

Lemma declaredBy_comma line k : declaredBy line = Some k → 0 < countChar "," line.
Proof.
  unfold declaredBy. case_decide as Hblank; [done|].
  assert (line ≠ "") as Hline by (by intros ->).
  pose proof (splitByComma_length line) as Hlen. rewrite decide_False in Hlen by done.
  destruct (splitByComma line) as [|token0 [|token1 tokens]]; simpl in Hlen; [done..|].
  intros _. lia.
Qed.

(** The five ways through the body of the pass-1 loop. *)
Lemma pass1Body_cases st line :
  (trim line = "" ∧ pass1Body st line = skipLine st) ∨
  (trim line ≠ "" ∧ countChar "," line = 0 ∧
   pass1Body st line = skipWith st ErrBadFormat) ∨
  (trim line ≠ "" ∧ 0 < countChar "," line ∧ declaredBy line = None ∧
   pass1Body st line = skipWith st ErrMissing) ∨
  (∃ k, trim line ≠ "" ∧ declaredBy line = Some k ∧ k ∈ vars st ∧
        pass1Body st line = skipWith st (ErrDuplicate k)) ∨
  (∃ k, trim line ≠ "" ∧ declaredBy line = Some k ∧ (k ∉ vars st) ∧
        pass1Body st line = nextWith st ({[k]} ∪ vars st)).
Proof.
  destruct (decide (trim line = "")) as [Hblank|Hblank].
  { left. split; [done|]. unfold pass1Body. by rewrite decide_True. }
  right. assert (line ≠ "") as Hline by (by intros ->).
  pose proof (splitByComma_length line) as Hlen. rewrite decide_False in Hlen by done.
  unfold pass1Body, declaredBy. rewrite !decide_False by done.
  destruct (splitByComma line) as [|token0 [|token1 tokens]]; simpl in Hlen.
  - lia.
  - left. split_and!; [done|lia|done].
  - right. simpl. destruct (decide (_ ∨ _)).
    + left. split_and!; [done|lia|done..].
    + right. destruct (decide (_ ∈ _)); [left|right]; by eexists.
Qed.

(** The five ways through the body of the pass-2 loop. *)
Lemma pass2Body_cases acn st line :
  (trim line = "" ∧ pass2Body acn st line = skipLine st) ∨
  (trim line ≠ "" ∧ countChar "," line = 0 ∧
   pass2Body acn st line = skipWith st ErrBadFormat) ∨
  (trim line ≠ "" ∧ 0 < countChar "," line ∧ declaredBy line = None ∧
   pass2Body acn st line = skipWith st ErrMissing) ∨
  (∃ k p, trim line ≠ "" ∧ declaredBy line = Some k ∧ builtCourse acn line = None ∧
          invalidPrereq acn (drop 2 (splitByComma line)) = Some p ∧
          pass2Body acn st line = skipWith st (λ n, ErrInvalidPrereq n p k)) ∨
  (∃ c, trim line ≠ "" ∧ declaredBy line = Some (courseNumber c) ∧
        builtCourse acn line = Some c ∧
        invalidPrereq acn (drop 2 (splitByComma line)) = None ∧
        pass2Body acn st line = nextWith st (insertCourse (vars st) c)).
Proof.
  destruct (decide (trim line = "")) as [Hblank|Hblank].
  { left. split; [done|]. unfold pass2Body. by rewrite decide_True. }
  right. assert (line ≠ "") as Hline by (by intros ->).
  pose proof (splitByComma_length line) as Hlen. rewrite decide_False in Hlen by done.
  unfold pass2Body, declaredBy, builtCourse. rewrite !decide_False by done.
  destruct (splitByComma line) as [|token0 [|token1 tokens]]; simpl in Hlen.
  - lia.
  - left. split_and!; [done|lia|done].
  - right. simpl. destruct (decide (_ ∨ _)).
    + left. split_and!; [done|lia|done..].
    + right. destruct (invalidPrereq acn tokens) as [p|] eqn:Hinv; [left|right].
      * by eexists _, p.
      * by eexists {| courseNumber := _ |}.
Qed.

Lemma pass1_snoc lines line : pass1 (lines ++ [line]) = pass1Body (pass1 lines) line.
Proof. apply foldl_snoc. Qed.

Lemma pass2_snoc acn cerr0 lines line :
  pass2 acn cerr0 (lines ++ [line]) = pass2Body acn (pass2 acn cerr0 lines) line.
Proof. apply foldl_snoc. Qed.

(** ** The line counter *)

Lemma wrapInt_range z : (INT_MIN ≤ wrapInt z ≤ INT_MAX)%Z.
Proof.
  unfold wrapInt, INT_MIN, INT_MAX.
  pose proof (Z.mod_pos_bound (z - -2147483648) (2 ^ 32) ltac:(done)). lia.
Qed.

Lemma wrapInt_small z : (INT_MIN ≤ z ≤ INT_MAX)%Z → wrapInt z = z.
Proof.
  unfold wrapInt, INT_MIN, INT_MAX. intros Hz.
  rewrite Z.mod_small; lia.
Qed.

Lemma increment_wrapInt z : increment (wrapInt z) = wrapInt (z + 1).
Proof.
  unfold increment, wrapInt.
  replace ((z - INT_MIN) `mod` 2 ^ 32 + INT_MIN + 1 - INT_MIN)%Z
    with ((z - INT_MIN) `mod` 2 ^ 32 + 1)%Z by lia.
  rewrite Zplus_mod_idemp_l.
  by replace (z - INT_MIN + 1)%Z with (z + 1 - INT_MIN)%Z by lia.
Qed.

Lemma increment_asInt n : increment (asInt n) = asInt (S n).
Proof. unfold asInt. rewrite increment_wrapInt. f_equal. lia. Qed.

(** Up to [INT_MAX] lines the counter is the number of lines read. *)
Lemma asInt_small n : (Z.of_nat n ≤ INT_MAX)%Z → asInt n = Z.of_nat n.
Proof. intros Hn. apply wrapInt_small. unfold INT_MIN. lia. Qed.

Lemma lineNumber_pass1 lines : lineNumber (pass1 lines) = asInt (length lines).
Proof.
  induction lines as [|line lines IH] using rev_ind; [done|].
  rewrite pass1_snoc, lineNumber_pass1Body, IH, length_app, increment_asInt.
  f_equal. simpl. lia.
Qed.

Lemma lineNumber_pass2 acn cerr0 lines :
  lineNumber (pass2 acn cerr0 lines) = asInt (length lines).
Proof.
  induction lines as [|line lines IH] using rev_ind; [done|].
  rewrite pass2_snoc, lineNumber_pass2Body, IH, length_app, increment_asInt.
  f_equal. simpl. lia.
Qed.

(** The prerequisite the validation loop stops at is the first one that is
    neither blank nor declared. *)
Lemma invalidPrereq_first acn tokens prereq :
  invalidPrereq acn tokens = Some prereq ↔ firstUndeclared acn tokens prereq.
Proof.
  unfold firstUndeclared. induction tokens as [|token tokens IH]; simpl.
  { split; [done|]. by intros (j & t & ? & _). }
  destruct (decide (normalizeCourseNumber token = "")) as [Hblank|Hblank];
    [|destruct (decide (normalizeCourseNumber token ∈ acn)) as [Hin|Hin]].
  1, 2: rewrite IH; split.
  1, 3: intros (j & t & Hj & Hn & Hne & Hnin & Hfirst);
    exists (S j), t; split_and!; try done;
    intros [|j'] t' Hlt Ht'; simpl in Ht'; [simplify_eq; tauto|];
    apply (Hfirst j' t'); [lia|done].
  1, 2: intros ([|j] & t & Hj & Hn & Hne & Hnin & Hfirst); simpl in Hj;
    [simplify_eq; congruence|];
    exists j, t; split_and!; try done;
    intros j' t' Hlt Ht'; apply (Hfirst (S j') t'); [lia|done].
  split.
  - intros [= <-]. exists 0, token. split_and!; try done. intros j' t' Hlt. lia.
  - intros ([|j] & t & Hj & Hn & Hne & Hnin & Hfirst); simpl in Hj; [by simplify_eq|].
    destruct (Hfirst 0 token) as [?|?]; [lia|done|done..].
Qed.

Lemma diagnosed_snoc acn lines line e :
  diagnosed acn (lines ++ [line]) e ↔
  diagnosed acn lines e ∨ diagnosedAt acn lines line (length lines) e.
Proof.
  unfold diagnosed. split.
  - intros (i & x & [[Hi Hx]|[-> ->]]%lookup_snoc_Some & Hat).
    + left. exists i, x. split; [done|]. by rewrite take_app_le in Hat by lia.
    + right. by rewrite take_app_length in Hat.
  - intros [(i & x & Hx & Hat)|Hat].
    + exists i, x. pose proof (lookup_lt_Some _ _ _ Hx).
      split; [apply lookup_snoc_Some; left; by split|].
      by rewrite take_app_le by lia.
    + exists (length lines), line.
      split; [apply lookup_snoc_Some; by right|]. by rewrite take_app_length.
Qed.

(** Case analysis on a diagnostic against what is known of its line. *)
Ltac diagnosed_cases e :=
  destruct e; simpl in *; rewrite <- ?invalidPrereq_first in *;
  destruct_and?; simplify_eq; try done; try lia;
  try (match goal with
       | H : declaredBy _ = Some _ |- _ => apply declaredBy_comma in H; lia
       end);
  try naive_solver.

(** What pass 1 has written after a prefix of the file. *)
Lemma elem_of_cerr_pass1 acn lines e :
  e ∈ cerr (pass1 lines) ↔ diagnosed acn lines e ∧ prereqError e = false.
Proof.
  induction lines as [|line lines IH] using rev_ind.
  { split; [by intros ?%elem_of_nil|]. by intros [(i & x & ? & _) _]. }
  rewrite pass1_snoc, diagnosed_snoc.
  assert (e ∈ cerr (pass1Body (pass1 lines) line) ↔
          e ∈ cerr (pass1 lines) ∨
          (diagnosedAt acn lines line (length lines) e ∧ prereqError e = false))
    as ->; [|rewrite IH; tauto].
  unfold diagnosedAt.
  destruct (pass1Body_cases (pass1 lines) line)
    as [[Hb ->]|[(Hb & Hc & ->)|[(Hb & Hc & Hd & ->)|[(k & Hb & Hd & Hk & ->)
       |(k & Hb & Hd & Hk & ->)]]]];
    simpl; rewrite ?elem_of_app, ?list_elem_of_singleton, ?lineNumber_pass1,
      ?increment_asInt;
    try (rewrite elem_of_vars_pass1 in Hk).
  - tauto.
  - split; [intros [?| ->]; [by left|right; by split_and!]|].
    intros [?|[[_ He] Hp]]; [by left|right]. diagnosed_cases e.
  - split; [intros [?| ->]; [by left|right; by split_and!]|].
    intros [?|[[_ He] Hp]]; [by left|right]. diagnosed_cases e.
  - split; [intros [?| ->]; [by left|right; by split_and!]|].
    intros [?|[[_ He] Hp]]; [by left|right]. diagnosed_cases e.
  - split; [by left|]. intros [?|[[_ He] Hp]]; [done|exfalso]. diagnosed_cases e.
Qed.

(** What pass 2 has added after a prefix of the file. *)
Lemma elem_of_cerr_pass2 acn cerr0 lines e :
  e ∈ cerr (pass2 acn cerr0 lines) ↔
  e ∈ cerr0 ∨ (diagnosed acn lines e ∧ duplicateError e = false).
Proof.
  induction lines as [|line lines IH] using rev_ind.
  { split; [by left|]. intros [?|[(i & x & ? & _) _]]; done. }
  rewrite pass2_snoc, diagnosed_snoc.
  assert (e ∈ cerr (pass2Body acn (pass2 acn cerr0 lines) line) ↔
          e ∈ cerr (pass2 acn cerr0 lines) ∨
          (diagnosedAt acn lines line (length lines) e ∧ duplicateError e = false))
    as ->; [|rewrite IH; tauto].
  unfold diagnosedAt.
  destruct (pass2Body_cases acn (pass2 acn cerr0 lines) line)
    as [[Hb ->]|[(Hb & Hc & ->)|[(Hb & Hc & Hd & ->)|[(k & p & Hb & Hd & _ & Hp & ->)
       |(c & Hb & Hd & _ & Hp & ->)]]]];
    simpl; rewrite ?elem_of_app, ?list_elem_of_singleton, ?lineNumber_pass2,
      ?increment_asInt.
  - tauto.
  - split; [intros [?| ->]; [by left|right; by split_and!]|].
    intros [?|[[_ He] Hdup]]; [by left|right]. diagnosed_cases e.
  - split; [intros [?| ->]; [by left|right; by split_and!]|].
    intros [?|[[_ He] Hdup]]; [by left|right]. diagnosed_cases e.
  - split; [intros [?| ->]; [by left|right; apply invalidPrereq_first in Hp;
                              by split_and!]|].
    intros [?|[[_ He] Hdup]]; [by left|right]. diagnosed_cases e.
  - split; [by left|]. intros [?|[[_ He] Hdup]]; [done|exfalso]. diagnosed_cases e.
Qed.

(** X6. The diagnostics of a load of a file that opens are exactly the
    justified ones: a message is written if and only if some line of the
    file, not blank and at the position the message names, has the defect
    the message reports: no comma; no course number or title; a course
    number an earlier line declares; a prerequisite that is not blank and
    that no line declares, every prerequisite token before it on the line
    being blank or declared. The line number a message names is the
    position of the line counted from 1, as the [int] the counter holds:
    beyond [INT_MAX] lines it wraps around. *)
Theorem diagnostics_exact fs fileName content (e : ErrLine) :
  fs fileName = Some content →
  e ∈ (loadCoursesFromFile fs fileName).2 ↔
  diagnosed (declaredCourseNumbers fs fileName) (fileLines content) e.
Proof.
  intros Hfs. unfold declaredCourseNumbers.
  rewrite (loadCoursesFromFile_Some _ _ _ Hfs), Hfs. simpl.
  rewrite elem_of_cerr_pass2, (elem_of_cerr_pass1 (vars (pass1 (fileLines content)))).
  split; [tauto|]. intros He.
  destruct (prereqError e) eqn:Hp; [right|left]; split; try done. by destruct e.
Qed.

Lemma diagnostics_exact_witness :
  scenarioFS "courses.csv" = Some scenarioFile ∧
  (ErrInvalidPrereq 3 "CS999" "CS300" ∈ (loadCoursesFromFile scenarioFS "courses.csv").2 ↔
   diagnosed (declaredCourseNumbers scenarioFS "courses.csv") (fileLines scenarioFile)
     (ErrInvalidPrereq 3 "CS999" "CS300")).
Proof.
  split; [reflexivity|].
  exact (diagnostics_exact scenarioFS "courses.csv" scenarioFile
           (ErrInvalidPrereq 3 "CS999" "CS300") eq_refl).
Defined.

(** The message about the third line of the scenario: [CS201], the first
    prerequisite, is declared; [CS999], the second, is the one named. *)
Example diagnosed_ex :
  diagnosed (declaredCourseNumbers scenarioFS "courses.csv") (fileLines scenarioFile)
    (ErrInvalidPrereq 3 "CS999" "CS300").
Proof.
  exists 2, "CS300, Algorithms, CS201,CS999". split; [done|].
  split; [by vm_compute|]. split_and!; [by vm_compute..|].
  exists 1, "CS999". split_and!; [by vm_compute..|decide_by_compute|].
  intros [|[|j']] token' Hlt Htoken'; [|lia..].
  right. vm_compute in Htoken'. injection Htoken' as <-. decide_by_compute.
Qed.

(** The counter past [INT_MAX]. *)
Example increment_ex :
  increment 3 = 4%Z ∧ increment INT_MAX = INT_MIN ∧ wrapInt 2147483648 = INT_MIN.
Proof. by vm_compute. Qed.





Example shape_errors_twice_ex :
  (loadCoursesFromFile (λ _, Some "CS101
, Title
CS200, Data Structures
") "courses.csv").2 =
  [ErrBadFormat 1; ErrMissing 2; ErrBadFormat 1; ErrMissing 2].
Proof. by vm_compute. Qed.

(** ** The keys of the table *)

Lemma foldl_insertCourse_is_Some table cs k :
  is_Some (foldl insertCourse table cs !! k) ↔
  is_Some (table !! k) ∨ k ∈ courseNumber <$> cs.
Proof.
  revert table. induction cs as [|c cs IH]; intros table; simpl.
  { split; [by left|]. by intros [?|?%elem_of_nil]. }
  rewrite IH, insertCourse_lookup, elem_of_cons.
  destruct (table !! k) as [c'|] eqn:Hk.
  - split; [by left|]. intros _. by left.
  - case_decide as Hc.
    + split; [intros _; right; by left|intros _; by left].
    + split; [intros [[? [=]]|?]; right; by right|].
      intros [[? [=]]|[?|?]]; [congruence|by right].
Qed.

Lemma loadCoursesFromFile_is_Some fs fileName content k :
  fs fileName = Some content →
  is_Some ((loadCoursesFromFile fs fileName).1 !! k) ↔
  ∃ line c, line ∈ fileLines content ∧
            builtCourse (declaredCourseNumbers fs fileName) line = Some c ∧
            courseNumber c = k.
Proof.
  intros Hfs. rewrite (loadCoursesFromFile_table _ _ _ Hfs), foldl_insertCourse_is_Some.
  rewrite lookup_empty, list_elem_of_fmap. split.
  - intros [[? [=]]|(c & -> & (line & ? & ?)%list_elem_of_omap)]. by exists line, c.
  - intros (line & c & ? & ? & <-). right. exists c. split; [done|].
    apply list_elem_of_omap. by exists line.
Qed.

Lemma size_list_to_set_le (l : list string) : size (list_to_set (C:=gset string) l) ≤ length l.
Proof.
  induction l as [|x l IH]; [by rewrite list_to_set_nil, size_empty|].
  rewrite list_to_set_cons, size_union_alt, size_singleton. simpl.
  pose proof (subseteq_size (list_to_set (C:=gset string) l ∖ {[x]}) (list_to_set l)
                ltac:(by apply subseteq_difference_l)). lia.
Qed.

Lemma length_omap_le {A B} (f : A → option B) (l : list A) :
  length (omap f l) ≤ length l.
Proof.
  induction l as [|x l IH]; [done|].
  change (omap f (x :: l)) with (match f x with Some y => y :: omap f l | None => omap f l end).
  destruct (f x); simpl; lia.
Qed.

(** X8. Every key of a loaded table is a course number pass 1 declared, so
    the table has at most as many records as there are declared numbers, and
    these are at most as many as the file has lines. *)
Theorem loaded_keys_bounded fs fileName :
  (∀ k, is_Some ((loadCoursesFromFile fs fileName).1 !! k) →
        k ∈ declaredCourseNumbers fs fileName) ∧
  size (loadCoursesFromFile fs fileName).1 ≤ size (declaredCourseNumbers fs fileName) ∧
  (∀ content, fs fileName = Some content →
     size (declaredCourseNumbers fs fileName) ≤ length (fileLines content)).
Proof.
  assert (∀ k, is_Some ((loadCoursesFromFile fs fileName).1 !! k) →
               k ∈ declaredCourseNumbers fs fileName) as Hdom.
  { intros k [c Hc]. apply loadCoursesFromFile_lookup in Hc as (content & line & Hfs & Hin & Hc & <-).
    unfold declaredCourseNumbers. rewrite Hfs. apply elem_of_vars_pass1.
    exists line. split; [done|]. by eapply builtCourse_declaredBy. }
  split_and!; [done| |].
  - rewrite <-size_dom. apply subseteq_size. intros k Hk%elem_of_dom. by apply Hdom.
  - intros content Hfs. unfold declaredCourseNumbers. rewrite Hfs, vars_pass1.
    etrans; [apply size_list_to_set_le|]. apply length_omap_le.
Qed.


(** The diagnostics of the two passes over the lines of a file. *)
Lemma elem_of_diagnostics lines e :
  let acn := vars (pass1 lines) in
  e ∈ cerr (pass2 acn (cerr (pass1 lines)) lines) ↔ diagnosed acn lines e.
Proof.
  intros acn. rewrite elem_of_cerr_pass2, (elem_of_cerr_pass1 acn).
  split; [tauto|]. intros He.
  destruct (prereqError e) eqn:Hp; [right|left]; split; try done. by destruct e.
Qed.

Lemma loadCoursesFromFile_diagnostics fs fileName content :
  fs fileName = Some content →
  (loadCoursesFromFile fs fileName).2 =
  cerr (pass2 (declaredCourseNumbers fs fileName)
          (cerr (pass1 (fileLines content))) (fileLines content)).
Proof.
  intros Hfs. unfold declaredCourseNumbers.
  by rewrite (loadCoursesFromFile_Some _ _ _ Hfs), Hfs.
Qed.

Lemma declaredBy_nonblank line k : declaredBy line = Some k → trim line ≠ "".
Proof. unfold declaredBy. by case_decide. Qed.

(** A line that declares a course number builds a course of that number,
    or has an invalid prerequisite. *)
Lemma declaredBy_built_or_invalid acn line k :
  declaredBy line = Some k →
  (∃ c, builtCourse acn line = Some c ∧ courseNumber c = k) ∨
  (∃ p, invalidPrereq acn (drop 2 (splitByComma line)) = Some p).
Proof.
  intros Hd.
  destruct (pass2Body_cases acn (MkScan ∅ 0 []) line)
    as [[Hb _]|[(_ & Hc & _)|[(_ & _ & Hn & _)|[(k' & p & _ & _ & _ & Hp & _)
       |(c & _ & Hd' & Hc & _)]]]].
  - by apply declaredBy_nonblank in Hd.
  - apply declaredBy_comma in Hd. lia.
  - congruence.
  - right. by exists p.
  - left. exists c. split; [done|]. congruence.
Qed.

(** X9. When a load reports no invalid prerequisite, the table holds
    exactly the course numbers pass 1 declared, every prerequisite stored in
    a record is a key of the table, and [printCourseInfo] never writes the
    fallback line for a prerequisite without record. *)
Theorem no_prerequisite_error_closed fs fileName :
  Forall (λ e, prereqError e = false) (loadCoursesFromFile fs fileName).2 →
  let table := (loadCoursesFromFile fs fileName).1 in
  (∀ k, is_Some (table !! k) ↔ k ∈ declaredCourseNumbers fs fileName) ∧
  (∀ k c p, table !! k = Some c → p ∈ prerequisites c → is_Some (table !! p)) ∧
  (∀ inputCourseNumber p,
     OutPrereqMissing p ∉ printCourseInfo table inputCourseNumber).
Proof.
  intros Hdiag table.
  assert (∀ k, k ∈ declaredCourseNumbers fs fileName → is_Some (table !! k)) as Hdom.
  { intros k Hk. unfold declaredCourseNumbers in Hk.
    destruct (fs fileName) as [content|] eqn:Hfs; [|by apply not_elem_of_empty in Hk].
    apply elem_of_vars_pass1 in Hk as (line & Hin & Hd).
    apply (loadCoursesFromFile_is_Some _ _ _ _ Hfs).
    destruct (declaredBy_built_or_invalid (declaredCourseNumbers fs fileName) line k Hd)
      as [(c & Hc & Hk)|[p Hp]]; [by exists line, c|exfalso].
    apply list_elem_of_lookup in Hin as [i Hi].
    rewrite Forall_forall in Hdiag.
    apply invalidPrereq_first in Hp.
    assert (prereqError (ErrInvalidPrereq (asInt (S i)) p k) = false) as Habs; [|done].
    apply Hdiag. rewrite (loadCoursesFromFile_diagnostics _ _ _ Hfs).
    unfold declaredCourseNumbers in *. rewrite Hfs in *.
    apply elem_of_diagnostics. exists i, line. split; [done|].
    split; [by eapply declaredBy_nonblank|done]. }
  assert (∀ k c p, table !! k = Some c → p ∈ prerequisites c → is_Some (table !! p))
    as Hclosed.
  { intros k c p (content & line & _ & _ & Hc & _)%loadCoursesFromFile_lookup Hp.
    apply builtCourse_wf in Hc as (_ & _ & _ & Hall).
    rewrite Forall_forall in Hall. apply Hdom. by apply Hall. }
  split_and!; [|done|].
  - intros k. split; [|apply Hdom]. intros [c Hc].
    apply loadCoursesFromFile_lookup in Hc as (content & line & Hfs & Hin & Hc & <-).
    unfold declaredCourseNumbers. rewrite Hfs. apply elem_of_vars_pass1.
    exists line. split; [done|]. by eapply builtCourse_declaredBy.
  - intros raw p. unfold printCourseInfo.
    case_decide; [by intros [=]%list_elem_of_singleton|].
    destruct (table !! normalizeCourseNumber raw) as [course|] eqn:Hcourse;
      [|by intros [=]%list_elem_of_singleton].
    intros [[=]|Hin]%elem_of_cons.
    destruct (prerequisites course) as [|q qs] eqn:Hq;
      [by apply list_elem_of_singleton in Hin|].
    apply elem_of_cons in Hin as [[=]|Hin].
    apply list_elem_of_fmap in Hin as (q' & Hq' & Hin). unfold printPrereq in Hq'.
    destruct (Hclosed _ _ q' Hcourse ltac:(by rewrite Hq)) as [c' Hc'].
    by rewrite Hc' in Hq'.
Qed.

Lemma no_prerequisite_error_closed_witness :
  let fs : FileSystem := λ _, Some forwardFile in
  let table := (loadCoursesFromFile fs "courses.csv").1 in
  Forall (λ e, prereqError e = false) (loadCoursesFromFile fs "courses.csv").2 ∧
  ((∀ k, is_Some (table !! k) ↔ k ∈ declaredCourseNumbers fs "courses.csv") ∧
   (∀ k c p, table !! k = Some c → p ∈ prerequisites c → is_Some (table !! p)) ∧
   (∀ inputCourseNumber p,
      OutPrereqMissing p ∉ printCourseInfo table inputCourseNumber)).
Proof.
  intros fs table.
  assert (Forall (λ e, prereqError e = false)
            (loadCoursesFromFile fs "courses.csv").2) as H
    by decide_by_compute.
  split; [exact H|]. exact (no_prerequisite_error_closed fs "courses.csv" H).
Defined.

(** The table of the witness stores a prerequisite, and it is a key. *)
Example forward_prerequisite_ex :
  let table := (loadCoursesFromFile (λ _, Some forwardFile) "courses.csv").1 in
  prerequisites <$> table !! "CS201" = Some ["CS101"] ∧
  title <$> table !! "CS101" = Some "Intro to CS" ∧
  printCourseInfo table "cs201" =
    [OutCourse "CS201" "Data Structures"; OutPrereqHeader;
     OutPrereq "CS101" "Intro to CS"].
Proof. by vm_compute. Qed.

(** Without a diagnostic, every line that is not blank builds a course
    whose number no earlier line declares. *)
Lemma undiagnosed_line acn lines i line :
  (∀ e, ¬ diagnosed acn lines e) →
  lines !! i = Some line → trim line ≠ "" →
  ∃ c, builtCourse acn line = Some c ∧
       ∀ line', line' ∈ take i lines → declaredBy line' ≠ Some (courseNumber c).
Proof.
  intros Hclean Hi Hb.
  assert (∀ e, ¬ diagnosedAt acn (take i lines) line i e) as Hat.
  { intros e He. apply (Hclean e). by exists i, line. }
  unfold diagnosedAt in Hat.
  destruct (pass2Body_cases acn (MkScan ∅ 0 []) line)
    as [[? _]|[(_ & Hc & _)|[(_ & Hc & Hn & _)|[(k & p & _ & Hd & _ & Hp & _)
       |(c & _ & Hd & Hc & _)]]]].
  - done.
  - destruct (Hat (ErrBadFormat (asInt (S i)))). by split_and!.
  - destruct (Hat (ErrMissing (asInt (S i)))). by split_and!.
  - apply invalidPrereq_first in Hp.
    destruct (Hat (ErrInvalidPrereq (asInt (S i)) p k)). by split_and!.
  - exists c. split; [done|]. intros line' Hin Hd'.
    destruct (Hat (ErrDuplicate (courseNumber c) (asInt (S i)))). split_and!; [done..|].
    by exists line'.
Qed.

Lemma clean_size acn lines :
  (∀ e, ¬ diagnosed acn lines e) →
  size (foldl insertCourse ∅ (omap (builtCourse acn) lines)) =
  length (filter (λ line, trim line ≠ "") lines).
Proof.
  induction lines as [|line lines IH] using rev_ind; [done|]. intros Hclean.
  assert (∀ e, ¬ diagnosed acn lines e) as Hpre.
  { intros e He. apply (Hclean e), diagnosed_snoc. by left. }
  rewrite omap_app, foldl_app, filter_app, length_app, <-IH by done.
  destruct (decide (trim line = "")) as [Hb|Hb].
  - rewrite filter_cons_False by (by intros ?). simpl.
    unfold builtCourse. rewrite decide_True by done. simpl. lia.
  - rewrite filter_cons_True by done. simpl.
    destruct (undiagnosed_line acn (lines ++ [line]) (length lines) line Hclean)
      as (c & Hc & Hfresh); [by apply list_lookup_middle|done|].
    rewrite take_app_length in Hfresh. rewrite Hc. simpl.
    unfold insertCourse. rewrite decide_True.
    + rewrite map_size_insert_None; [lia|].
      apply foldl_insertCourse_None; [done|].
      intros c' (line' & Hin & Hc')%list_elem_of_omap Heq.
      apply (Hfresh line' Hin). rewrite <-Heq. by eapply builtCourse_declaredBy.
    + apply foldl_insertCourse_None; [done|].
      intros c' (line' & Hin & Hc')%list_elem_of_omap Heq.
      apply (Hfresh line' Hin). rewrite <-Heq. by eapply builtCourse_declaredBy.
Qed.

(** X10. A load that writes no diagnostic has read a file in which every
    line that is not blank builds a course, and the table holds the record
    of each of these lines: it has as many records as the file has lines
    that are not blank. *)
Theorem clean_load_complete fs fileName :
  (loadCoursesFromFile fs fileName).2 = [] →
  ∃ content,
    fs fileName = Some content ∧
    (∀ line, line ∈ fileLines content → trim line ≠ "" →
       ∃ c, builtCourse (declaredCourseNumbers fs fileName) line = Some c ∧
            (loadCoursesFromFile fs fileName).1 !! courseNumber c = Some c) ∧
    size (loadCoursesFromFile fs fileName).1 =
      length (filter (λ line, trim line ≠ "") (fileLines content)).
Proof.
  intros Hnil. destruct (fs fileName) as [content|] eqn:Hfs;
    [|unfold loadCoursesFromFile in Hnil; by rewrite Hfs in Hnil].
  exists content. split; [done|].
  set (acn := declaredCourseNumbers fs fileName).
  assert (∀ e, ¬ diagnosed acn (fileLines content) e) as Hclean.
  { intros e He. rewrite (loadCoursesFromFile_diagnostics _ _ _ Hfs) in Hnil.
    unfold acn, declaredCourseNumbers in *. rewrite Hfs in *.
    apply elem_of_diagnostics in He. rewrite Hnil in He. by apply elem_of_nil in He. }
  split.
  - intros line [i Hi]%list_elem_of_lookup Hb.
    destruct (undiagnosed_line acn _ i line Hclean Hi Hb) as (c & Hc & Hfresh).
    exists c. split; [done|].
    apply (loadCoursesFromFile_first_built fs fileName content
             (take i (fileLines content)) line (drop (S i) (fileLines content)));
      [done|by rewrite take_drop_middle|done|].
    intros line' c' Hin Hc' Heq. apply (Hfresh line' Hin).
    rewrite <-Heq. by eapply builtCourse_declaredBy.
  - rewrite (loadCoursesFromFile_table _ _ _ Hfs). by apply clean_size.
Qed.

Lemma clean_load_complete_witness :
  (loadCoursesFromFile (λ _, Some forwardFile) "courses.csv").2 = [] ∧
  ∃ content,
    Some forwardFile = Some content ∧
    (∀ line, line ∈ fileLines content → trim line ≠ "" →
       ∃ c, builtCourse (declaredCourseNumbers (λ _, Some forwardFile) "courses.csv") line
              = Some c ∧
            (loadCoursesFromFile (λ _, Some forwardFile) "courses.csv").1
              !! courseNumber c = Some c) ∧
    size (loadCoursesFromFile (λ _, Some forwardFile) "courses.csv").1 =
      length (filter (λ line, trim line ≠ "") (fileLines content)).
Proof.
  assert ((loadCoursesFromFile (λ _, Some forwardFile) "courses.csv").2 = []) as H
    by (by vm_compute).
  split; [exact H|].
  exact (clean_load_complete (λ _, Some forwardFile) "courses.csv" H).
Defined.

(** ** The order of the lines *)

Lemma omap_NoDup_inj {A B} (f : A → option B) (l : list A) x y b :
  NoDup (omap f l) → x ∈ l → y ∈ l → f x = Some b → f y = Some b → x = y.
Proof.
  induction l as [|a l IH]; [by intros _ ?%elem_of_nil|].
  change (omap f (a :: l))
    with (match f a with Some z => z :: omap f l | None => omap f l end).
  intros Hnd [->|Hx]%elem_of_cons [->|Hy]%elem_of_cons Hfx Hfy; [done| | |].
  - rewrite Hfx in Hnd. apply NoDup_cons in Hnd as [Hnot _].
    destruct Hnot. apply list_elem_of_omap. by exists y.
  - rewrite Hfy in Hnd. apply NoDup_cons in Hnd as [Hnot _].
    destruct Hnot. apply list_elem_of_omap. by exists x.
  - apply IH; try done. destruct (f a); [by apply NoDup_cons in Hnd as [_ ?]|done].
Qed.

(** X11. Loading does not depend on the order of the lines, up to which of
    several declarations of one course number is kept: two files with the
    same lines in any order declare the same course numbers and give tables
    with the same keys, so a prerequisite may be declared after the course
    that needs it; when no course number is declared twice, the two tables
    are equal. *)
Theorem load_order_independent fs1 fileName1 content1 fs2 fileName2 content2 :
  fs1 fileName1 = Some content1 →
  fs2 fileName2 = Some content2 →
  fileLines content1 ≡ₚ fileLines content2 →
  let table1 := (loadCoursesFromFile fs1 fileName1).1 in
  let table2 := (loadCoursesFromFile fs2 fileName2).1 in
  declaredCourseNumbers fs1 fileName1 = declaredCourseNumbers fs2 fileName2 ∧
  (∀ k, is_Some (table1 !! k) ↔ is_Some (table2 !! k)) ∧
  (NoDup (omap declaredBy (fileLines content1)) → table1 = table2).
Proof.
  intros Hfs1 Hfs2 Hperm table1 table2.
  assert (declaredCourseNumbers fs1 fileName1 = declaredCourseNumbers fs2 fileName2)
    as Hacn.
  { unfold declaredCourseNumbers. rewrite Hfs1, Hfs2, !vars_pass1.
    apply set_eq. intros k. rewrite !elem_of_list_to_set, !list_elem_of_omap.
    by setoid_rewrite Hperm. }
  assert (∀ k, is_Some (table1 !! k) ↔ is_Some (table2 !! k)) as Hdom.
  { intros k. unfold table1, table2.
    rewrite (loadCoursesFromFile_is_Some _ _ _ _ Hfs1),
      (loadCoursesFromFile_is_Some _ _ _ _ Hfs2), Hacn.
    by setoid_rewrite Hperm. }
  split_and!; [done..|]. intros Hnd. apply map_eq. intros k.
  destruct (table1 !! k) as [c1|] eqn:H1.
  - destruct (proj1 (Hdom k)) as [c2 H2]; [by rewrite H1|]. rewrite H2. f_equal.
    apply loadCoursesFromFile_lookup in H1 as (? & line1 & ? & Hin1 & Hc1 & Hk1).
    apply loadCoursesFromFile_lookup in H2 as (? & line2 & ? & Hin2 & Hc2 & Hk2).
    simplify_eq. rewrite <-Hperm in Hin2. rewrite <-Hacn in Hc2.
    assert (line1 = line2) as ->; [|congruence].
    apply (omap_NoDup_inj declaredBy _ _ _ (courseNumber c1) Hnd Hin1 Hin2).
    + by eapply builtCourse_declaredBy.
    + rewrite <-Hk2. by eapply builtCourse_declaredBy.
  - destruct (table2 !! k) as [c2|] eqn:H2; [|done].
    destruct (proj2 (Hdom k)) as [c1 Hc1]; [by rewrite H2|]. congruence.
Qed.

Lemma load_order_independent_witness :
  let fs1 : FileSystem := λ _, Some forwardFile in
  let fs2 : FileSystem := λ _, Some backwardFile in
  (fs1 "a.csv" = Some forwardFile ∧ fs2 "b.csv" = Some backwardFile ∧
   fileLines forwardFile ≡ₚ fileLines backwardFile) ∧
  (declaredCourseNumbers fs1 "a.csv" = declaredCourseNumbers fs2 "b.csv" ∧
   (∀ k, is_Some ((loadCoursesFromFile fs1 "a.csv").1 !! k) ↔
         is_Some ((loadCoursesFromFile fs2 "b.csv").1 !! k)) ∧
   (NoDup (omap declaredBy (fileLines forwardFile)) →
    (loadCoursesFromFile fs1 "a.csv").1 = (loadCoursesFromFile fs2 "b.csv").1)).
Proof.
  intros fs1 fs2.
  assert (fileLines forwardFile ≡ₚ fileLines backwardFile) as Hperm
    by (vm_compute; apply perm_swap).
  split; [by split_and!|].
  exact (load_order_independent fs1 "a.csv" forwardFile fs2 "b.csv" backwardFile
           eq_refl eq_refl Hperm).
Defined.


(** ** Reading a menu choice *)

Example readIntChoice_ex :
  readIntChoice "  +009 
rest" = (Some 9%Z, "rest") ∧
  readIntChoice "1 2
" = (None, "") ∧
  readIntChoice "-2147483648
" = (Some INT_MIN, "") ∧
  readIntChoice "2147483648
" = (None, "") ∧
  readIntChoice "9x
" = (None, "") ∧
  readIntChoice "" = (None, "").
Proof. by vm_compute. Qed.


Lemma isdigit_uint_of_char c d :
  DecimalString.uint_of_char c (Some d) = None ↔ isdigit c = false.
Proof. by destruct c as [[] [] [] [] [] [] [] []]. Qed.

Lemma uint_of_char_None c : DecimalString.uint_of_char c None = None.
Proof. done. Qed.

(** The digit loop stops before the end of a string that is not made of
    digits. *)
Lemma scanDigits_short s acc n :
  DecimalString.NilEmpty.uint_of_string s = None →
  (scanDigits s acc n).2 < n + String.length s.
Proof.
  revert acc n. induction s as [|c s IH]; intros acc n; [done|]. simpl.
  destruct (DecimalString.NilEmpty.uint_of_string s) as [d|] eqn:Hs.
  - intros ->%isdigit_uint_of_char. simpl. lia.
  - intros _. destruct (isdigit c); simpl; [|lia].
    specialize (IH (10 * acc + (Z.of_N (N_of_ascii c) - 48))%Z (S n) eq_refl). lia.
Qed.

(** On a string of digits the loop computes the number the standard library
    reads, from a positive accumulator and from zero. *)
Lemma scanDigits_acc s d p n :
  DecimalString.NilEmpty.uint_of_string s = Some d →
  scanDigits s (Zpos p) n = (Zpos (Pos.of_uint_acc d p), n + String.length s).
Proof.
  revert d p n. induction s as [|c s IH]; intros d p n.
  { intros [= <-]. simpl. by rewrite Nat.add_0_r. }
  simpl. destruct (DecimalString.NilEmpty.uint_of_string s) as [d'|]; [|done].
  destruct c as [[] [] [] [] [] [] [] []]; try done; intros [= <-];
    cbn [isdigit N_of_ascii]; simpl;
    match goal with
    | |- scanDigits _ ?z _ = (Z.pos (Pos.of_uint_acc _ ?q), _) =>
        replace z with (Z.pos q) by lia;
        rewrite (IH d' q (S n) eq_refl); f_equal; lia
    end.
Qed.

Lemma scanDigits_zero s d n :
  DecimalString.NilEmpty.uint_of_string s = Some d →
  scanDigits s 0 n = (Z.of_uint d, n + String.length s).
Proof.
  revert d n. induction s as [|c s IH]; intros d n.
  { intros [= <-]. simpl. by rewrite Nat.add_0_r. }
  simpl. destruct (DecimalString.NilEmpty.uint_of_string s) as [d'|] eqn:Hs; [|done].
  destruct c as [[] [] [] [] [] [] [] []]; try done; intros [= <-];
    cbn [isdigit N_of_ascii]; unfold Z.of_uint; simpl;
    match goal with
    | |- scanDigits _ ?z _ = (Z.pos (Pos.of_uint_acc _ ?q), _) =>
        replace z with (Z.pos q) by lia;
        rewrite (scanDigits_acc s d' q (S n) Hs); f_equal; lia
    | |- scanDigits _ ?z _ = _ =>
        replace z with 0%Z by lia;
        rewrite (IH d' (S n) eq_refl); f_equal; lia
    end.
Qed.

Lemma length_dropSpaceFront s :
  String.length s = trimStart s + String.length (dropSpaceFront s).
Proof.
  induction s as [|c s IH]; [done|]. simpl. destruct (isspace c); simpl; lia.
Qed.

Lemma trimStart_trimmed s : dropSpaceFront s = s → trimStart s = 0.
Proof. intros H. pose proof (length_dropSpaceFront s) as Hlen. rewrite H in Hlen. lia. Qed.

(** The digit loop against the reading of the standard library, for the
    digits of a line after a sign of [signLength] characters. *)
Lemma digits_agree (line digits : string) (negative : bool) (signLength : nat) :
  String.length line = signLength + String.length digits →
  choiceOf line
    (let '(value, count) := scanDigits digits 0 0 in
     if decide (count = 0) then None
     else
       let val := (if negative then - value else value)%Z in
       if decide (INT_MIN ≤ val ≤ INT_MAX)%Z
       then Some (val, signLength + count)
       else None) =
  option_map (if negative then Decimal.Neg else Decimal.Pos)
    (DecimalString.NilZero.uint_of_string digits) ≫=
  (λ d, if decide (INT_MIN ≤ Z.of_int d ≤ INT_MAX)%Z then Some (Z.of_int d) else None).
Proof.
  intros Hlen. destruct digits as [|c u]; [done|].
  unfold DecimalString.NilZero.uint_of_string.
  destruct (DecimalString.NilEmpty.uint_of_string (String c u)) as [d|] eqn:Hd.
  - rewrite (scanDigits_zero _ d 0 Hd). rewrite decide_False by done.
    cbn [option_map mbind option_bind].
    assert (Z.of_int ((if negative then Decimal.Neg else Decimal.Pos) d) =
            (if negative then - Z.of_uint d else Z.of_uint d)%Z) as ->
      by (by destruct negative).
    cbn zeta. case_decide; [|done]. unfold choiceOf.
    rewrite decide_False; [done|]. intros Hne. apply Hne. simpl in *. lia.
  - pose proof (scanDigits_short _ 0%Z 0 Hd) as Hshort.
    destruct (scanDigits (String c u) 0 0) as [value count]. simpl in Hshort.
    cbn [option_map mbind option_bind]. repeat case_decide; try done.
    unfold choiceOf. rewrite decide_True; [done|]. simpl in Hlen. lia.
Qed.

Lemma stoi_trimmed t :
  dropSpaceFront t = t → choiceOf t (stoi t) = decimalChoice t.
Proof.
  intros Hdrop. unfold stoi. rewrite Hdrop, (trimStart_trimmed t Hdrop).
  destruct t as [|c u]; [done|].
  destruct (decide (c = "-"%char)) as [->|Hm]; [|destruct (decide (c = "+"%char)) as [->|Hp]].
  - by apply (digits_agree (String "-" u) u true 1).
  - by apply (digits_agree (String "+" u) u false 1).
  - destruct c as [[] [] [] [] [] [] [] []]; try done;
      by apply (digits_agree (String _ u) (String _ u) false 0).
Qed.

Lemma readIntChoice_eq (cin : string) :
  readIntChoice cin =
  match cinGetline cin with
  | None => (None, cin)
  | Some (line, rest) => (choiceOf (trim line) (stoi (trim line)), rest)
  end.
Proof.
  unfold readIntChoice. destruct (cinGetline cin) as [[line rest]|]; [|done].
  case_decide as Hblank; [by rewrite Hblank|].
  unfold choiceOf. destruct (stoi (trim line)) as [[val idx]|]; [|done].
  by case_decide.
Qed.

(** X12. [readIntChoice] reads one line, and returns [true] exactly when the
    trimmed line is a decimal integer in the notation of the standard
    library (digits after an optional sign [-] or [+], and nothing else)
    whose value is an [int]; that value is the choice. White space around
    the number and leading zeros are accepted; an empty or blank line, a
    number followed by other characters and a number beyond [int] are
    refused, as is the end of the input, where nothing is consumed. *)
Theorem readIntChoice_decimal (cin : string) :
  readIntChoice cin =
  match cinGetline cin with
  | None => (None, cin)
  | Some (line, rest) => (decimalChoice (trim line), rest)
  end.
Proof.
  rewrite readIntChoice_eq. destruct (cinGetline cin) as [[line rest]|]; [|done].
  by rewrite stoi_trimmed by apply dropSpaceFront_trim.
Qed.


Example decimalChoice_ex :
  decimalChoice "+009" = Some 9%Z ∧ decimalChoice "-0" = Some 0%Z ∧
  decimalChoice "+-5" = None ∧ decimalChoice "" = None ∧
  decimalChoice "-" = None ∧ decimalChoice "2147483647" = Some INT_MAX ∧
  decimalChoice "2147483648" = None.
Proof. by vm_compute. Qed.

(** ** The main program *)

Example session_ex :
  Main.main 10 scenarioFS sessionInput =
  Main.Returned
    (Main.MkState "" 
       [Main.Welcome; Main.AskFileName;
        Main.Menu; Main.LoadFirst;
        Main.Menu; Main.Loaded 2;
        Main.Menu; Main.Query (OutCourse "CS101" "Intro to CS");
        Main.Query (OutCourse "CS201" "Data Structures");
        Main.Menu; Main.AskCourseNumber;
        Main.Query (OutCourse "CS201" "Data Structures");
        Main.Query OutPrereqHeader; Main.Query (OutPrereq "CS101" "Intro to CS");
        Main.Menu; Main.Goodbye]
       [ErrDuplicate "CS101" 4%Z; ErrInvalidPrereq 3%Z "CS999" "CS300"]
       (loadCoursesFromFile scenarioFS "courses.csv").1 true "courses.csv").
Proof. by vm_compute. Qed.

Lemma getline_app delim s rest :
  countChar delim s = 0 → getline delim (s +:+ String delim rest) = (s, rest).
Proof.
  induction s as [|c s IH].
  - intros _. change ("" +:+ String delim rest) with (String delim rest).
    simpl. by rewrite decide_True.
  - rewrite countChar_String, app_String. case_decide as Hc; [done|]. intros Hs.
    simpl. rewrite decide_False by done. by rewrite IH.
Qed.

Lemma cinGetline_app line rest :
  countChar "010" line = 0 →
  cinGetline (line +:+ String "010" rest) = Some (line, rest).
Proof.
  intros Hline. unfold cinGetline. rewrite <-(getline_app _ _ rest Hline).
  by destruct line.
Qed.

Lemma to_int_nonnil n : Z.to_int n ≠ Decimal.Pos Decimal.Nil ∧ Z.to_int n ≠ Decimal.Neg Decimal.Nil.
Proof.
  destruct n as [|p|p]; simpl; split; try done;
    intros [= H]; by apply DecimalPos.Unsigned.to_uint_nonnil in H.
Qed.

Lemma decimalChoice_printed n :
  decimalChoice (DecimalString.NilZero.string_of_int (Z.to_int n)) =
  if decide (INT_MIN ≤ n ≤ INT_MAX)%Z then Some n else None.
Proof.
  destruct (to_int_nonnil n) as [Hpos Hneg].
  pose proof (DecimalString.NilZero.isi _ Hpos Hneg) as Hread.
  unfold decimalChoice.
  destruct (DecimalString.NilZero.string_of_int (Z.to_int n)) as [|c u]; [done|].
  destruct c as [[] [] [] [] [] [] [] []];
    try (rewrite Hread; simpl; by rewrite DecimalZ.of_to).
  exfalso. simpl in Hread.
  by destruct (DecimalString.NilEmpty.uint_of_string u).
Qed.

(** X13. Reading what was printed: a line without newline whose trimmed
    form is the decimal notation the standard library prints for an integer
    [n] is read as the choice [n] when [n] is an [int], and refused when it
    is not; the line and its newline are consumed, the rest of the input is
    left. *)
Theorem readIntChoice_printed (n : Z) (line rest : string) :
  countChar "010" line = 0 →
  trim line = DecimalString.NilZero.string_of_int (Z.to_int n) →
  readIntChoice (line +:+ String "010" rest) =
  (if decide (INT_MIN ≤ n ≤ INT_MAX)%Z then Some n else None, rest).
Proof.
  intros Hline Htrim.
  rewrite readIntChoice_eq, (cinGetline_app _ _ Hline).
  rewrite stoi_trimmed by apply dropSpaceFront_trim.
  by rewrite Htrim, decimalChoice_printed.
Qed.

Lemma readIntChoice_printed_witness :
  (countChar "010" "   42 " = 0 ∧
   trim "   42 " = DecimalString.NilZero.string_of_int (Z.to_int 42)) ∧
  readIntChoice ("   42 " +:+ String "010" "9") =
  (if decide (INT_MIN ≤ 42 ≤ INT_MAX)%Z then Some 42%Z else None, "9").
Proof.
  split; [by split|].
  exact (readIntChoice_printed 42 "   42 " "9" eq_refl eq_refl).
Defined.

(** ** Listing, then looking up *)

(** The listing of any table is written without exception; for a table that
    is not empty it has one course line per sorted key. *)
Lemma printCourseListSorted_rows (table : CourseTable) :
  ∃ out, printCourseListSorted table = Some out ∧
         (table ≠ ∅ →
          Forall2 (λ num line, ∃ c, table !! num = Some c ∧
                                    line = OutCourse (courseNumber c) (title c))
            (sortCourseNums (map_to_list table).*1) out).
Proof.
  unfold printCourseListSorted. case_decide as Hempty; [by exists [OutNoData]|].
  set (nums := sortCourseNums (map_to_list table).*1).
  assert (Forall (λ num, is_Some (table !! num)) nums) as Hnums.
  { apply Forall_forall. intros num Hin. unfold nums, sortCourseNums in Hin.
    rewrite merge_sort_Permutation in Hin.
    apply list_elem_of_fmap in Hin as ([k c] & -> & Hin).
    apply elem_of_map_to_list in Hin. by exists c. }
  induction Hnums as [|num nums [c Hc] _ (out & Hout & Hall)].
  - by exists [].
  - exists (OutCourse (courseNumber c) (title c) :: out). split.
    + rewrite mapM_Some. constructor; [unfold printCourseRow; by rewrite Hc|].
      by apply mapM_Some.
    + intros _. constructor; [by exists c|by apply Hall].
Qed.

Lemma courseRows_Forall2 (table : CourseTable) nums out num ttl :
  Forall2 (λ num line, ∃ c, table !! num = Some c ∧
                            line = OutCourse (courseNumber c) (title c)) nums out →
  (num, ttl) ∈ courseRows out →
  ∃ k c, table !! k = Some c ∧ num = courseNumber c ∧ ttl = title c.
Proof.
  induction 1 as [|k line nums out (c & Hc & ->) _ IH]; simpl.
  - by intros ?%elem_of_nil.
  - intros [[= -> ->]|Hin]%elem_of_cons; [by exists k, c|by apply IH].
Qed.

(** X14. Every course the listing of a loaded table shows can be looked up:
    for each row of [printCourseListSorted], [printCourseInfo] on any input
    that normalizes to the listed number (the number in any letter case,
    with white space around it) starts with the same number and title. *)
Theorem listed_course_found fs fileName out (num ttl inputCourseNumber : string) :
  let table := (loadCoursesFromFile fs fileName).1 in
  printCourseListSorted table = Some out →
  (num, ttl) ∈ courseRows out →
  normalizeCourseNumber inputCourseNumber = num →
  ∃ lines, printCourseInfo table inputCourseNumber = OutCourse num ttl :: lines.
Proof.
  intros table Hout Hrow Hnorm.
  destruct (printCourseListSorted_rows table) as (out' & Hout' & Hall).
  assert (out' = out) as -> by congruence.
  destruct (decide (table = ∅)) as [Hempty|Hempty].
  { unfold printCourseListSorted in Hout. rewrite decide_True in Hout by done.
    simplify_eq. by apply elem_of_nil in Hrow. }
  destruct (courseRows_Forall2 _ _ _ _ _ (Hall Hempty) Hrow) as (k & c & Hc & -> & ->).
  pose proof (loadCoursesFromFile_keyed fs fileName k c Hc) as Hk. simpl in Hk.
  unfold printCourseInfo. rewrite decide_False by done.
  rewrite Hnorm, Hk. fold table. rewrite Hc. rewrite Hk. by eexists.
Qed.

Lemma listed_course_found_witness :
  let table := (loadCoursesFromFile scenarioFS "courses.csv").1 in
  let out := [OutCourse "CS101" "Intro to CS"; OutCourse "CS201" "Data Structures"] in
  (printCourseListSorted table = Some out ∧
   ("CS201", "Data Structures") ∈ courseRows out ∧
   normalizeCourseNumber " cs201 " = "CS201") ∧
  ∃ lines, printCourseInfo table " cs201 " = OutCourse "CS201" "Data Structures" :: lines.
Proof.
  intros table out.
  assert (printCourseListSorted table = Some out) as Hout by (by vm_compute).
  assert (("CS201", "Data Structures") ∈ courseRows out) as Hrow
    by decide_by_compute.
  split; [by split_and!|].
  exact (listed_course_found scenarioFS "courses.csv" out "CS201" "Data Structures"
           " cs201 " Hout Hrow eq_refl).
Defined.

(** ** The menu loop *)

Lemma printCourseInfo_no_notice (table : CourseTable) inputCourseNumber :
  table ≠ ∅ → OutNoData ∉ printCourseInfo table inputCourseNumber.
Proof.
  intros Hne. unfold printCourseInfo. rewrite decide_False by done.
  destruct (table !! _) as [course|]; [|by intros [=]%list_elem_of_singleton].
  intros [[=]|Hin]%elem_of_cons.
  destruct (prerequisites course); [by apply list_elem_of_singleton in Hin|].
  apply elem_of_cons in Hin as [[=]|Hin].
  apply list_elem_of_fmap in Hin as (p & Hp & _). unfold printPrereq in Hp.
  by destruct (table !! p).
Qed.

Lemma printCourseListSorted_no_notice (table : CourseTable) :
  table ≠ ∅ →
  ∃ out, printCourseListSorted table = Some out ∧ OutNoData ∉ out.
Proof.
  intros Hne. destruct (printCourseListSorted_rows table) as (out & Hout & Hall).
  exists out. split; [done|]. specialize (Hall Hne). clear Hout.
  induction Hall as [|num line nums out (c & _ & ->) _ IH]; [by intros ?%elem_of_nil|].
  by intros [[=]|?]%elem_of_cons.
Qed.

Lemma Query_elem (out : list OutLine) (l : OutLine) :
  Main.Query l ∈ Main.Query <$> out ↔ l ∈ out.
Proof.
  rewrite list_elem_of_fmap. split; [by intros (l' & [= ->] & ?)|]. intros ?. by exists l.
Qed.

Lemma askFileName_cout st :
  Main.cout (Main.askFileName st) = Main.cout st ++ [Main.AskFileName].
Proof.
  unfold Main.askFileName, Main.readLine. simpl.
  by destruct (cinGetline (Main.cin st)) as [[line rest]|].
Qed.

Lemma askFileName_vars st :
  Main.coursesTable (Main.askFileName st) = Main.coursesTable st ∧
  Main.dataLoaded (Main.askFileName st) = Main.dataLoaded st ∧
  Main.cerr (Main.askFileName st) = Main.cerr st.
Proof.
  unfold Main.askFileName, Main.readLine. simpl.
  by destruct (cinGetline (Main.cin st)) as [[line rest]|].
Qed.

Lemma readLine_vars st old :
  let st' := (Main.readLine st old).2 in
  Main.cout st' = Main.cout st ∧ Main.coursesTable st' = Main.coursesTable st ∧
  Main.dataLoaded st' = Main.dataLoaded st ∧ Main.fileName st' = Main.fileName st ∧
  Main.cerr st' = Main.cerr st.
Proof.
  unfold Main.readLine. by destruct (cinGetline (Main.cin st)) as [[line rest]|].
Qed.

(** Messages of [main] itself are not the notice of the queries. *)
Ltac no_notice :=
  rewrite ?elem_of_app, ?elem_of_cons, ?elem_of_nil, ?Query_elem;
  intuition congruence.

(** One iteration keeps the invariant, and does not end with an exception. *)
Lemma iteration_invariant fs st :
  mainInvariant fs st →
  match Main.iteration fs st with
  | Main.Running st' | Main.Returned st' => mainInvariant fs st'
  | Main.Thrown _ => False
  end.
Proof.
  intros (Hflag & Htable & Hout). unfold Main.iteration.
  change (Main.cin (Main.print st [Main.Menu])) with (Main.cin st).
  destruct (readIntChoice (Main.cin st)) as [[choice|] rest].
  2:{ split_and!; simpl; [done..|]. no_notice. }
  set (st1 := Main.MkState rest _ _ _ _ _).
  assert (Main.Query OutNoData ∉ Main.cout st1) as Hout1 by (simpl; no_notice).
  assert (Main.coursesTable st1 = Main.coursesTable st) as Ht1 by done.
  assert (Main.dataLoaded st1 = Main.dataLoaded st) as Hd1 by done.
  assert (Main.fileName st1 = Main.fileName st) as Hf1 by done.
  clearbody st1. rewrite <-Ht1, <-Hd1, <-Hf1 in *. clear Ht1 Hd1 Hf1 Hout.
  destruct (decide (choice = 1)%Z) as [_|_];
    [|destruct (decide (choice = 2)%Z) as [_|_];
      [|destruct (decide (choice = 3)%Z) as [_|_];
        [|destruct (decide (choice = 9)%Z) as [_|_]]]].
  - set (st2 := if decide _ then _ else _).
    assert (Main.Query OutNoData ∉ Main.cout st2) as Hout2.
    { unfold st2. case_decide; [rewrite askFileName_cout; no_notice|done]. }
    clearbody st2.
    destruct (loadCoursesFromFile fs (Main.fileName st2)) as [table diags] eqn:Hload.
    case_decide as Hne; (split_and!; simpl; [|right; by rewrite Hload|no_notice]).
    + done.
    + split; [done|]. intros ?. by destruct Hne.
  - destruct (Main.dataLoaded st1) eqn:Hd; [|split_and!; simpl; [by rewrite Hd|done|no_notice]].
    destruct (printCourseListSorted_no_notice (Main.coursesTable st1)) as (out & -> & Hno);
      [by apply Hflag|].
    split_and!; simpl; [by rewrite Hd|done|no_notice].
  - destruct (Main.dataLoaded st1) eqn:Hd; [|split_and!; simpl; [by rewrite Hd|done|no_notice]].
    set (st2 := Main.print st1 [Main.AskCourseNumber]).
    destruct (readLine_vars st2 "") as (Hc & Ht & Hd' & Hf & _).
    destruct (Main.readLine st2 "") as [courseNumber st3]. simpl in *.
    pose proof (printCourseInfo_no_notice (Main.coursesTable st1) courseNumber
                  ltac:(by apply Hflag)) as Hno.
    split_and!; simpl; rewrite ?Hc, ?Ht, ?Hd', ?Hf; [by rewrite Hd|done|no_notice].
  - split_and!; simpl; [done..|no_notice].
  - split_and!; simpl; [done..|no_notice].
Qed.

Lemma iteration_returned fs st st' :
  Main.iteration fs st = Main.Returned st' → last (Main.cout st') = Some Main.Goodbye.
Proof.
  unfold Main.iteration.
  destruct (readIntChoice _) as [[choice|] rest]; [|done].
  repeat case_decide; repeat case_match; try done.
  intros [= <-]. simpl. apply last_snoc.
Qed.

Lemma loop_invariant fuel fs st :
  mainInvariant fs st →
  match Main.loop fuel fs st with
  | Main.Running st' => mainInvariant fs st'
  | Main.Returned st' => mainInvariant fs st' ∧ last (Main.cout st') = Some Main.Goodbye
  | Main.Thrown _ => False
  end.
Proof.
  revert st. induction fuel as [|fuel IH]; intros st Hinv; [done|]. simpl.
  pose proof (iteration_invariant fs st Hinv) as Hstep.
  destruct (Main.iteration fs st) as [st'|st'|st'] eqn:Hiter; [by apply IH| |done].
  split; [done|]. by eapply iteration_returned.
Qed.

Lemma start_invariant fs stdin : mainInvariant fs (Main.start stdin).
Proof.
  unfold Main.start. destruct (askFileName_vars (Main.MkState stdin [Main.Welcome] [] ∅ false ""))
    as (Ht & Hd & _).
  split_and!.
  - rewrite Hd, Ht. simpl. split; [done|]. by intros [].
  - left. by rewrite Ht.
  - rewrite askFileName_cout. simpl. no_notice.
Qed.

(** X15. The program never ends with an exception, whatever it reads: after
    any number of iterations of the menu loop it is still running or has
    returned after writing its goodbye. All along, [dataLoaded] is set
    exactly when the table is not empty, the table is empty or the result of
    loading [fileName], and no query has written that no course data is
    loaded: the queries are never run on an empty table. *)
Theorem main_safe (fuel : nat) (fs : FileSystem) (stdin : string) :
  ∃ st,
    (Main.main fuel fs stdin = Main.Running st ∨
     Main.main fuel fs stdin = Main.Returned st ∧
     last (Main.cout st) = Some Main.Goodbye) ∧
    (Main.dataLoaded st = true ↔ Main.coursesTable st ≠ ∅) ∧
    (Main.coursesTable st = ∅ ∨
     Main.coursesTable st = (loadCoursesFromFile fs (Main.fileName st)).1) ∧
    Main.Query OutNoData ∉ Main.cout st.
Proof.
  pose proof (loop_invariant fuel fs _ (start_invariant fs stdin)) as H.
  unfold Main.main. destruct (Main.loop fuel fs (Main.start stdin)) as [st|st|st].
  - exists st. split; [by left|done].
  - exists st. destruct H as [Hinv Hlast]. split; [by right|done].
  - done.
Qed.

Lemma print_nil st : Main.print st [] = st.
Proof. destruct st. unfold Main.print. simpl. by rewrite app_nil_r. Qed.

Lemma print_print st out1 out2 :
  Main.print (Main.print st out1) out2 = Main.print st (out1 ++ out2).
Proof. unfold Main.print. simpl. by rewrite (assoc_L (++)). Qed.

(** X16. At the end of the input the program does not stop: when no
    character is left on [std::cin], every iteration of the menu loop shows
    the menu, reports an invalid input and changes nothing else, so the loop
    never returns. *)
Theorem loop_at_end_of_input (fuel : nat) (fs : FileSystem) (st : Main.State) :
  Main.cin st = "" →
  Main.loop fuel fs st =
  Main.Running (Main.print st (mjoin (replicate fuel [Main.Menu; Main.InvalidInput]))).
Proof.
  revert st. induction fuel as [|fuel IH]; intros st Hcin; simpl.
  { by rewrite print_nil. }
  assert (Main.iteration fs st = Main.Running (Main.print st [Main.Menu; Main.InvalidInput]))
    as ->.
  { unfold Main.iteration. simpl. rewrite Hcin. simpl. unfold Main.print. simpl.
    by rewrite Hcin, <-(assoc_L (++)). }
  rewrite IH by done. by rewrite print_print.
Qed.

Lemma loop_at_end_of_input_witness :
  Main.cin (Main.start "") = "" ∧
  Main.loop 3 scenarioFS (Main.start "") =
  Main.Running (Main.print (Main.start "")
                  (mjoin (replicate 3 [Main.Menu; Main.InvalidInput]))).
Proof.
  split; [reflexivity|]. exact (loop_at_end_of_input 3 scenarioFS (Main.start "") eq_refl).
Defined.

Lemma iteration_fileName fs st :
  Main.fileName st ≠ "" →
  Main.fileName (Main.state (Main.iteration fs st)) = Main.fileName st.
Proof.
  intros Hname. unfold Main.iteration.
  destruct (readIntChoice _) as [[choice|] rest]; [|done]. simpl.
  rewrite (decide_False (P := Main.fileName st = "")) by done.
  repeat case_decide; repeat case_match; simplify_eq/=; try done.
  match goal with
  | H : Main.readLine ?st0 ?old = _ |- _ =>
      destruct (readLine_vars st0 old) as (_ & _ & _ & Hf & _); rewrite H in Hf
  end.
  done.
Qed.

(** X17. The program reads one file only: once [fileName] is not empty no
    iteration of the menu loop changes it, so every later load reads the
    file of that name again. *)
Theorem fileName_fixed (fuel : nat) (fs : FileSystem) (st : Main.State) :
  Main.fileName st ≠ "" →
  Main.fileName (Main.state (Main.loop fuel fs st)) = Main.fileName st.
Proof.
  revert st. induction fuel as [|fuel IH]; intros st Hname; [done|]. simpl.
  pose proof (iteration_fileName fs st Hname) as Hstep.
  destruct (Main.iteration fs st) as [st'|st'|st']; simpl in *; [|done..].
  rewrite IH; [done|]. by rewrite Hstep.
Qed.

Lemma fileName_fixed_witness :
  Main.fileName (Main.start sessionInput) ≠ "" ∧
  Main.fileName (Main.state (Main.loop 10 scenarioFS (Main.start sessionInput))) =
  Main.fileName (Main.start sessionInput).
Proof.
  assert (Main.fileName (Main.start sessionInput) ≠ "") as H by (by vm_compute).
  split; [exact H|]. exact (fileName_fixed 10 scenarioFS (Main.start sessionInput) H).
Defined.

(** ** Commas *)

Lemma getlines_snoc delim s :
  s ≠ "" →
  getlines delim (s +:+ String delim "") =
  if decide (back s = Some delim) then getlines delim s ++ [""] else getlines delim s.
Proof.
  induction s as [|c s IH]; [done|]. intros _.
  rewrite app_String, !getlines_String, back_String.
  destruct s as [|a s].
  - change ("" +:+ String delim "") with (String delim "").
    assert (getlines delim (String delim "") = [""]) as ->.
    { rewrite getlines_String. by rewrite decide_True. }
    change (getlines delim "") with (@nil string).
    destruct (decide (c = delim)) as [->|Hc]; [by rewrite decide_True|].
    by rewrite decide_False by congruence.
  - rewrite IH by done. pose proof (getlines_nonempty delim a s) as Hne.
    destruct (decide (c = delim)); case_decide; try done;
      by destruct (getlines delim (String a s)).
Qed.

(** A comma added at the end of a line adds an empty token. *)
Lemma splitByComma_snoc line :
  line ≠ "" → splitByComma (line +:+ ",") = splitByComma line ++ [""].
Proof.
  intros Hline. unfold splitByComma.
  rewrite (decide_True (P := back (line +:+ ",") = Some ","%char)) by apply back_append_char.
  rewrite getlines_snoc by done. case_decide; [|done].
  by rewrite fmap_app.
Qed.

Lemma invalidPrereq_snoc_empty acn tokens :
  invalidPrereq acn (tokens ++ [""]) = invalidPrereq acn tokens.
Proof.
  induction tokens as [|token tokens IH]; [done|]. simpl. by rewrite IH.
Qed.

Lemma collectPrereqs_snoc_empty tokens :
  collectPrereqs (tokens ++ [""]) = collectPrereqs tokens.
Proof.
  induction tokens as [|token tokens IH]; [done|]. simpl. by rewrite IH.
Qed.

Lemma trim_comma_nonblank line : 0 < countChar "," line → trim line ≠ "".
Proof.
  intros Hc Hb%trim_empty_iff. revert Hc. induction line as [|c line IH]; simpl; [lia|].
  simpl in Hb. apply andb_true_iff in Hb as [Hsp Hb].
  case_decide as Hcomma; [by subst|]. simpl. by apply IH.
Qed.

(** X18. A comma at the end of a line does no harm: for a line that has a
    comma already, one more comma at its end adds an empty token, which
    neither pass looks at or which pass 2 ignores as a blank prerequisite;
    both loop bodies do to the longer line what they do to the line. *)
Theorem trailing_comma_harmless (acn : gset string) (line : string) :
  0 < countChar "," line →
  splitByComma (line +:+ ",") = splitByComma line ++ [""] ∧
  (∀ st, pass1Body st (line +:+ ",") = pass1Body st line) ∧
  (∀ st, pass2Body acn st (line +:+ ",") = pass2Body acn st line).
Proof.
  intros Hcomma. assert (line ≠ "") as Hline by (intros ->; simpl in Hcomma; lia).
  pose proof (trim_comma_nonblank line Hcomma) as Hb.
  assert (trim (line +:+ ",") ≠ "") as Hb'.
  { apply trim_comma_nonblank. rewrite countChar_app. lia. }
  pose proof (splitByComma_length line) as Hlen. rewrite decide_False in Hlen by done.
  split; [by apply splitByComma_snoc|].
  split; intros st; unfold pass1Body, pass2Body; rewrite !decide_False by done;
    rewrite splitByComma_snoc by done;
    destruct (splitByComma line) as [|token0 [|token1 tokens]]; simpl in Hlen;
    try lia; simpl; [done|].
  case_decide; [done|].
  by rewrite invalidPrereq_snoc_empty, collectPrereqs_snoc_empty.
Qed.

Lemma trailing_comma_harmless_witness :
  0 < countChar "," "CS201, Data Structures, CS101" ∧
  splitByComma ("CS201, Data Structures, CS101" +:+ ",") =
    splitByComma "CS201, Data Structures, CS101" ++ [""] ∧
  (∀ st, pass1Body st ("CS201, Data Structures, CS101" +:+ ",") =
         pass1Body st "CS201, Data Structures, CS101") ∧
  (∀ st, pass2Body {[ "CS101" ]} st ("CS201, Data Structures, CS101" +:+ ",") =
         pass2Body {[ "CS101" ]} st "CS201, Data Structures, CS101").
Proof.
  assert (0 < countChar "," "CS201, Data Structures, CS101") as H by (vm_compute; lia).
  split; [exact H|].
  exact (trailing_comma_harmless {[ "CS101" ]} "CS201, Data Structures, CS101" H).
Defined.

Lemma countChar_upcase s : countChar "," (upcase s) = countChar "," s.
Proof.
  induction s as [|c s IH]; [done|]. simpl. rewrite IH. f_equal.
  by destruct c as [[] [] [] [] [] [] [] []].
Qed.

Lemma collectPrereqs_no_comma tokens :
  Forall (λ token, countChar "," token = 0) tokens →
  Forall (λ p, countChar "," p = 0) (collectPrereqs tokens).
Proof.
  induction 1 as [|token tokens Ht _ IH]; simpl; [done|].
  case_decide; [done|]. constructor; [|done].
  unfold normalizeCourseNumber. rewrite countChar_upcase. by apply countChar_trim.
Qed.

(** X19. The format has no quoting, and it shows in what is loaded: in every
    record of a loaded table neither the course number, nor the title, nor
    any prerequisite contains a comma, and the title is trimmed. A title
    with a comma cannot be loaded as such. *)
Theorem loaded_fields_no_comma fs fileName (k : string) (c : Course) :
  (loadCoursesFromFile fs fileName).1 !! k = Some c →
  countChar "," (courseNumber c) = 0 ∧
  countChar "," (title c) = 0 ∧ trim (title c) = title c ∧
  Forall (λ p, countChar "," p = 0) (prerequisites c).
Proof.
  intros (content & line & _ & _ & Hc & _)%loadCoursesFromFile_lookup.
  unfold builtCourse in Hc. case_decide; [done|].
  pose proof (splitByComma_Forall line) as Htokens.
  destruct (splitByComma line) as [|token0 [|token1 tokens]]; [done..|].
  simpl in Hc. case_decide; [done|].
  destruct (invalidPrereq _ tokens); [done|]. simplify_eq. simpl.
  apply Forall_cons in Htokens as [[_ Hnum] Htokens].
  apply Forall_cons in Htokens as [[_ Httl] Htokens].
  split_and!.
  - unfold normalizeCourseNumber. rewrite countChar_upcase. by apply countChar_trim.
  - by apply countChar_trim.
  - apply trim_idemp.
  - apply collectPrereqs_no_comma. eapply Forall_impl; [done|]. by intros ? [_ ?].
Qed.

Lemma loaded_fields_no_comma_witness :
  let c := {| courseNumber := "CS201"; title := "Data Structures";
              prerequisites := ["CS101"] |} in
  (loadCoursesFromFile scenarioFS "courses.csv").1 !! "CS201" = Some c ∧
  (countChar "," (courseNumber c) = 0 ∧
   countChar "," (title c) = 0 ∧ trim (title c) = title c ∧
   Forall (λ p, countChar "," p = 0) (prerequisites c)).
Proof.
  intros c. assert ((loadCoursesFromFile scenarioFS "courses.csv").1 !! "CS201" = Some c)
    as H by (by vm_compute).
  split; [exact H|]. exact (loaded_fields_no_comma scenarioFS "courses.csv" "CS201" c H).
Defined.

(** ** The listing of any table *)

(** The row [printCourseListSorted] writes for a record. *)
Lemma printCourseRow_lookup (table : CourseTable) num c :
  table !! num = Some c →
  printCourseRow table num = Some (OutCourse (courseNumber c) (title c)).
Proof. intros Hc. unfold printCourseRow. by rewrite Hc. Qed.

Lemma mapM_printCourseRow (table : CourseTable) (records : list (string * Course)) nums :
  nums ≡ₚ records.*1 →
  Forall (λ kc, table !! kc.1 = Some kc.2) records →
  ∃ rows, mapM (printCourseRow table) nums = Some rows ∧
          rows ≡ₚ (λ kc, OutCourse (courseNumber kc.2) (title kc.2)) <$> records.
Proof.
  intros Hperm. revert records Hperm.
  induction nums as [|num nums IH]; intros records Hperm Hrecords.
  - apply Permutation_nil_l in Hperm. symmetry in Hperm.
    apply fmap_nil_inv in Hperm as ->. by exists [].
  - assert (num ∈ records.*1) as Hin by (rewrite <- Hperm; left).
    apply list_elem_of_fmap in Hin as ([k c] & -> & Hin).
    apply elem_of_Permutation in Hin as (records' & Hrec).
    rewrite Hrec in Hperm, Hrecords. simpl in Hperm.
    apply Permutation_cons_inv in Hperm.
    apply Forall_cons in Hrecords as [Hc Hrecords].
    destruct (IH records' Hperm Hrecords) as (rows & Hrows & Hrowsperm).
    exists (OutCourse (courseNumber c) (title c) :: rows). split.
    + rewrite mapM_Some in Hrows |- *.
      constructor; [by apply printCourseRow_lookup|done].
    + rewrite Hrec. simpl. by constructor.
Qed.

(** X20. [printCourseListSorted] never throws, whatever the table: the
    numbers it passes to [at] are keys of the table. For a table that is not
    empty it writes one row for each record, the records of the table in
    some order; for the empty table it writes the notice that no data is
    loaded. *)
Theorem printCourseListSorted_total (coursesTable : CourseTable) :
  ∃ rows,
    printCourseListSorted coursesTable =
      Some (if decide (coursesTable = ∅) then [OutNoData] else rows) ∧
    rows ≡ₚ (λ kc, OutCourse (courseNumber kc.2) (title kc.2)) <$>
            map_to_list coursesTable.
Proof.
  unfold printCourseListSorted.
  destruct (mapM_printCourseRow coursesTable (map_to_list coursesTable)
              (sortCourseNums (map_to_list coursesTable).*1)) as (rows & Hrows & Hperm).
  - unfold sortCourseNums. apply merge_sort_Permutation.
  - apply Forall_forall. intros [k c] Hin. by apply elem_of_map_to_list in Hin.
  - exists rows. split; [|done]. by case_decide.
Qed.

(** ** Totality of the load and row-local errors *)

Lemma getlines_app delim s rest :
  countChar delim s = 0 →
  getlines delim (s +:+ String delim rest) = s :: getlines delim rest.
Proof.
  induction s as [|c s IH].
  - intros _. change ("" +:+ String delim rest) with (String delim rest).
    rewrite getlines_String. by rewrite decide_True.
  - rewrite countChar_String, app_String. case_decide as Hc; [done|]. intros Hs.
    rewrite getlines_String, decide_False by done. by rewrite IH.
Qed.

(** A file made of lines, each ended by a newline, is read back as these
    lines. *)
Lemma getlines_of_delimited delim lines :
  Forall (λ line, countChar delim line = 0) lines →
  getlines delim (delimited delim lines) = lines.
Proof.
  induction 1 as [|line lines Hline _ IH]; [done|].
  simpl. by rewrite getlines_app, IH.
Qed.

Lemma foldl_insertCourse_built_None acn lines k :
  foldl insertCourse ∅ (omap (builtCourse acn) lines) !! k = None ↔
  ∀ line c, line ∈ lines → builtCourse acn line = Some c → courseNumber c ≠ k.
Proof.
  rewrite eq_None_not_Some, foldl_insertCourse_is_Some, lookup_empty, list_elem_of_fmap.
  split.
  - intros Hnone line c Hin Hc <-. apply Hnone. right. exists c. split; [done|].
    apply list_elem_of_omap. by exists line.
  - intros Hall [[? [=]]|(c & -> & (line & Hin & Hc)%list_elem_of_omap)].
    by apply (Hall line c).
Qed.

(** The table pass 2 ends with holds, under each course number, the course
    built from the first line that builds one of that number. *)
Lemma foldl_insertCourse_firstBuilt acn lines k c :
  foldl insertCourse ∅ (omap (builtCourse acn) lines) !! k = Some c ↔
  firstBuilt acn lines k c.
Proof.
  revert c. induction lines as [|last lines IH] using rev_ind; intros c.
  { simpl. rewrite lookup_empty. split; [done|]. by intros (i & line & ? & _). }
  rewrite omap_app, foldl_app. simpl.
  pose proof (foldl_insertCourse_built_None acn lines k) as Hnone.
  split.
  - intros Hc.
    assert (firstBuilt acn lines k c ∨
            (builtCourse acn last = Some c ∧ courseNumber c = k ∧
             foldl insertCourse ∅ (omap (builtCourse acn) lines) !! k = None))
      as [(i & line & Hi & Hb & Hk & Hfirst)|(Hb & Hk & Hn)].
    { destruct (builtCourse acn last) as [c'|] eqn:Hb; simpl in Hc; [|left; by apply IH].
      rewrite insertCourse_lookup in Hc.
      destruct (foldl insertCourse ∅ (omap (builtCourse acn) lines) !! k) as [c0|] eqn:Hk.
      - left. apply IH. congruence.
      - case_decide; simplify_eq. by right. }
    + exists i, line. pose proof (lookup_lt_Some _ _ _ Hi).
      split_and!; [apply lookup_snoc_Some; left; by split|done..|].
      intros j line' c' Hlt Hj. apply (Hfirst j line' c' Hlt).
      apply lookup_snoc_Some in Hj as [[_ ?]|[? _]]; [done|lia].
    + exists (length lines), last.
      split_and!; [apply lookup_snoc_Some; by right|done..|].
      intros j line' c' Hlt Hj Hc'. apply lookup_snoc_Some in Hj as [[_ Hj]|[? _]]; [|lia].
      apply (proj1 Hnone Hn line' c'); [by eapply list_elem_of_lookup_2|done].
  - intros (i & line & [[Hlt Hi]|[-> ->]]%lookup_snoc_Some & Hb & Hk & Hfirst).
    + assert (foldl insertCourse ∅ (omap (builtCourse acn) lines) !! k = Some c) as Hc.
      { apply IH. exists i, line. split_and!; [done..|].
        intros j line' c' Hj Hline'. apply (Hfirst j line' c' Hj).
        apply lookup_snoc_Some. left. split; [lia|done]. }
      destruct (builtCourse acn last) as [c'|]; simpl; [|done].
      by rewrite insertCourse_lookup, Hc.
    + rewrite Hb. simpl. rewrite insertCourse_lookup.
      assert (foldl insertCourse ∅ (omap (builtCourse acn) lines) !! k = None) as ->.
      { apply Hnone. intros line' c' (j & Hj)%list_elem_of_lookup Hc'.
        pose proof (lookup_lt_Some _ _ _ Hj).
        apply (Hfirst j line' c'); [done| |done].
        apply lookup_snoc_Some. left. by split. }
      by rewrite decide_True.
Qed.

(** The lines of a file are those the [getline] loop reads. *)
Lemma linesOf_fileLines content lines : linesOf content lines → fileLines content = lines.
Proof.
  intros [Hfree Hjoin]. destruct (getlines_rebuild "010" content) as [Hread Hfree'].
  rewrite <- Hjoin in Hread. unfold fileLines.
  rewrite <- (getlines_of_delimited "010" (getlines "010" content)) by done.
  rewrite Hread. by apply getlines_of_delimited.
Qed.

(** Every content has lines: those the [getline] loop reads. *)
Lemma linesOf_exists content : linesOf content (fileLines content).
Proof.
  destruct (getlines_rebuild "010" content) as [Hread Hfree]. by split.
Qed.

(** C4. [loadCoursesFromFile] returns a table and a list of diagnostics for
    every file system and file name. A file that cannot be opened gives the
    empty table and the message that it could not be opened. For a file that
    opens, every line is processed, whatever the lines before it are: the
    course numbers declared are those of the lines that declare one; the
    table holds, under each course number, the course built from the first
    line that passes every test of pass 2 with that number, and nothing
    else; and the diagnostics are those the lines justify, each about one
    line, none about the file. *)
Theorem load_total_row_local (fs : FileSystem) (fileName : string)
    (lines : list string) :
  (∀ content, fs fileName = Some content → linesOf content lines) →
  ∃ table diagnostics,
    loadCoursesFromFile fs fileName = (table, diagnostics) ∧
    match fs fileName with
    | None => table = ∅ ∧ diagnostics = [ErrCouldNotOpen fileName]
    | Some _ =>
        ∃ declared : gset string,
          (∀ k, k ∈ declared ↔ ∃ line, line ∈ lines ∧ declaredBy line = Some k) ∧
          (∀ k c, table !! k = Some c ↔ firstBuilt declared lines k c) ∧
          (∀ e, e ∈ diagnostics ↔ diagnosed declared lines e) ∧
          (ErrCouldNotOpen fileName ∉ diagnostics)
    end.
Proof.
  intros Hlines. destruct (fs fileName) as [content|] eqn:Hfs.
  - pose proof (linesOf_fileLines content lines (Hlines content eq_refl)) as Hread.
    eexists _, _. split; [by apply loadCoursesFromFile_Some|]. simpl. rewrite Hread.
    exists (vars (pass1 lines)).
    assert (∀ e, e ∈ cerr (pass2 (vars (pass1 lines)) (cerr (pass1 lines)) lines) ↔
                 diagnosed (vars (pass1 lines)) lines e) as Hdiag
      by apply elem_of_diagnostics.
    split_and!.
    + apply elem_of_vars_pass1.
    + intros k c. rewrite vars_pass2. apply foldl_insertCourse_firstBuilt.
    + exact Hdiag.
    + intros (i & line & _ & _ & [])%Hdiag.
  - exists ∅, [ErrCouldNotOpen fileName]. unfold loadCoursesFromFile. by rewrite Hfs.
Qed.

Lemma load_total_row_local_witness :
  let lines := ["CS101, Intro to CS,"; "CS201, Data Structures, CS101";
                "CS300, Algorithms, CS201,CS999"; "cs101, Duplicate Intro,"] in
  (∀ content, scenarioFS "courses.csv" = Some content → linesOf content lines) ∧
  ∃ table diagnostics,
    loadCoursesFromFile scenarioFS "courses.csv" = (table, diagnostics) ∧
    ∃ declared : gset string,
      (∀ k, k ∈ declared ↔ ∃ line, line ∈ lines ∧ declaredBy line = Some k) ∧
      (∀ k c, table !! k = Some c ↔ firstBuilt declared lines k c) ∧
      (∀ e, e ∈ diagnostics ↔ diagnosed declared lines e) ∧
      (ErrCouldNotOpen "courses.csv" ∉ diagnostics).
Proof.
  intros lines.
  assert (∀ content, scenarioFS "courses.csv" = Some content → linesOf content lines)
    as Hlines
    by (intros content [= <-]; split; [decide_by_compute|by vm_compute]).
  split; [exact Hlines|].
  exact (load_total_row_local scenarioFS "courses.csv" lines Hlines).
Defined.

(** A file that cannot be opened, and the scenario: the rejected third
    line and the duplicate fourth line leave the records of the first two. *)
Example load_scenario_ex :
  loadCoursesFromFile (λ _, None) "courses.csv" = (∅, [ErrCouldNotOpen "courses.csv"]) ∧
  size (loadCoursesFromFile scenarioFS "courses.csv").1 = 2 ∧
  title <$> (loadCoursesFromFile scenarioFS "courses.csv").1 !! "CS101" =
    Some "Intro to CS" ∧
  title <$> (loadCoursesFromFile scenarioFS "courses.csv").1 !! "CS201" =
    Some "Data Structures".
Proof. by vm_compute. Qed.
